(** * BTC T3 trend bot: a shallow embedding of the three revisions of the bot

    The repository holds three revisions of one Node.js program:
    - [bot.js]    : plain module state, credentials required at startup;
    - [part_000]  : shared [global.botState], leader guard, 10 minute
                    Telegram cooldown, 2 hour bar boundary;
    - [part_001]  : plain module state, Telegram silently disabled when the
                    credentials are missing.

    The indicator engine ([ema], [tillsonT3Series]), the colour
    classification and the gateway ([fetchData]) are textually the same in
    the three files and are embedded once.  The notifier, the startup code
    and the body of [strategyLoop] differ and are embedded once per file, in
    the modules [Bot], [Part000] and [Part001].

    Numbers.  Prices and indicator values are JavaScript numbers, i.e. IEEE
    754 binary64: they are Rocq's primitive [float]s, whose operations round
    to nearest-even exactly as JavaScript's do.  Candle timestamps come
    from [parseInt], whose value is an integer or NaN: they are [number]s,
    an integer in [Z] or [NaN].  The integers are taken to stay below 2^53
    in size, where binary64 arithmetic on integers is exact (epoch
    milliseconds are far below); the one division the code applies to them
    is carried out in [Q] before [Math.floor]. *)

From Stdlib Require Import Floats ZArith QArith Qround String Ascii DecimalString List Bool Lia.
From Stdlib Require Import Sorted Permutation.
Import ListNotations.

Set Warnings "-inexact-float".
#[local] Open Scope list_scope.

(** ** JavaScript values, as far as the program looks at them *)

(** A JSON value read from the exchange, or [JUndefined] for a property that
    is not there. *)
Inductive jsval : Type :=
| JUndefined
| JNull
| JBool (b : bool)
| JNum (x : float)
| JStr (s : string)
| JObject.

(** [ToBoolean]: the falsy values are undefined, null, false, +0, -0, NaN
    and the empty string. *)
Definition truthy (v : jsval) : bool :=
  match v with
  | JUndefined => false
  | JNull => false
  | JBool b => b
  | JNum x => negb (PrimFloat.eqb x 0%float || PrimFloat.is_nan x)
  | JStr s => negb (String.eqb s EmptyString)
  | JObject => true
  end.

(** [a && b] yields [a] when [a] is falsy and [b] otherwise. *)
Definition js_and (a b : jsval) : jsval := if truthy a then b else a.

(** A JavaScript number that is an integer or NaN: what [parseInt] returns
    and what the arithmetic on timestamps keeps. *)
Inductive number : Type :=
| Num (z : Z)
| NaN.

(** [x * k], [x - y] and [x === y] on such numbers: NaN is contagious and
    equal to nothing, itself included. *)
Definition times (x : number) (k : Z) : number :=
  match x with
  | Num z => Num (z * k)
  | NaN => NaN
  end.

Definition minus (x y : number) : number :=
  match x, y with
  | Num a, Num b => Num (a - b)
  | _, _ => NaN
  end.

Definition strictEq (x y : number) : bool :=
  match x, y with
  | Num a, Num b => (a =? b)%Z
  | _, _ => false
  end.

Definition isNum (x : number) : bool :=
  match x with
  | Num _ => true
  | NaN => false
  end.

(** Built-ins of the JavaScript host and of the libraries the program calls;
    they are not code of the repository and stay abstract. *)
Class Host : Type := {
  Math_pow : float -> float -> float;
  (** an integer, or NaN when the value does not start with one *)
  parseInt : jsval -> number;
  parseFloat : jsval -> float;
  (** [x.toLocaleString()] *)
  toLocaleString : float -> string;
  (** [moment(ts).tz('Asia/Kolkata').format('YYYY-MM-DD HH:mm IST')] *)
  formatIST : number -> string;
  (** [arr.sort(compare)] when [compare] is no consistent comparator: the
      language leaves the order to the implementation; the result still
      holds the elements of [arr], each as often as [arr] does. *)
  Array_sort_inconsistent : forall A : Type, (A -> A -> number) -> list A -> list A;
  Array_sort_inconsistent_perm :
    forall (A : Type) (compare : A -> A -> number) (arr : list A),
      Permutation (Array_sort_inconsistent A compare arr) arr
}.

(** [arr[i]] read as a number: an index out of range gives [undefined], which
    arithmetic turns into NaN and with which every comparison is false. *)
Definition get (arr : list float) (i : nat) : float := nth i arr PrimFloat.nan.

(** [arr.map((x, i) => f(x, i))] *)
Fixpoint map_from {A B : Type} (f : A -> nat -> B) (i : nat) (arr : list A) : list B :=
  match arr with
  | [] => []
  | x :: rest => f x i :: map_from f (S i) rest
  end.

Definition Array_map {A B : Type} (f : A -> nat -> B) (arr : list A) : list B :=
  map_from f 0 arr.

(** [arr.at(-1)] *)
Definition at_last {A : Type} (arr : list A) : option A :=
  match arr with
  | [] => None
  | x :: rest => Some (last rest x)
  end.

(** [arr.slice(-n)]: the last [n] elements, all of them when there are fewer. *)
Definition slice_last {A : Type} (n : nat) (arr : list A) : list A :=
  skipn (length arr - n) arr.

(** ** Indicator engine *)

Section Indicator.

#[local] Open Scope float_scope.

(** The loop of [ema] from index 1 on: [prev] is [result[i - 1]]. *)
Fixpoint ema_loop (multiplier prev : float) (series : list float) : list float :=
  match series with
  | [] => []
  | x :: rest =>
      let r := (x * multiplier) + (prev * (1 - multiplier)) in
      r :: ema_loop multiplier r rest
  end.

Definition ema (series : list float) (length : float) : list float :=
  let multiplier := 2 / (length + 1) in
  match series with
  | [] => []
  | x0 :: rest => x0 :: ema_loop multiplier x0 rest
  end.

(** The sixth pass [e6] of [tillsonT3Series], on its own. *)
Definition ema6 (src : list float) (length : float) : list float :=
  let e1 := ema src length in
  let e2 := ema e1 length in
  let e3 := ema e2 length in
  let e4 := ema e3 length in
  let e5 := ema e4 length in
  ema e5 length.

Context {host : Host}.

Definition tillsonT3Series (high low close : list float) (length a : float) : list float :=
  let src := Array_map (fun c i => (get high i + get low i + 2 * c) / 4) close in
  let e1 := ema src length in
  let e2 := ema e1 length in
  let e3 := ema e2 length in
  let e4 := ema e3 length in
  let e5 := ema e4 length in
  let e6 := ema e5 length in
  let c1 := - Math_pow a 3 in
  let c2 := 3 * Math_pow a 2 + 3 * Math_pow a 3 in
  let c3 := -6 * Math_pow a 2 - 3 * a - 3 * Math_pow a 3 in
  let c4 := 1 + 3 * a + Math_pow a 3 + 3 * Math_pow a 2 in
  Array_map (fun _ i => c1 * get e6 i + c2 * get e5 i + c3 * get e4 i + c4 * get e3 i) e3.

End Indicator.

(** Bar colours: ['yellow'] is neutral, ['green'] rising, ['red'] falling. *)
Inductive color : Type := yellow | green | red.

Definition color_eqb (c d : color) : bool :=
  match c, d with
  | yellow, yellow | green, green | red, red => true
  | _, _ => false
  end.

(** [t3.map((v, i) => i ? v > t3[i-1] ? 'green' : 'red' : 'yellow')] *)
Definition colors (t3 : list float) : list color :=
  Array_map (fun v i =>
               match i with
               | O => yellow
               | S _ => if PrimFloat.ltb (get t3 (i - 1)) v then green else red
               end) t3.

(** ** Market data gateway *)

(** An object among the elements of [data.result]; a property that is
    absent reads as [JUndefined].  (A number, string or boolean element
    reads like an object with no property: every access gives undefined.) *)
Record Row : Type := {
  row_time : jsval;
  row_open : jsval;
  row_high : jsval;
  row_low : jsval;
  row_close : jsval
}.

(** An element of [data.result]: null, on which [c.open] throws a
    TypeError, or something properties can be read from. *)
Inductive Element : Type :=
| Null
| Object (row : Row).

(** [data.result]: undefined or null; an array; or anything else, with the
    truthiness of its [length] (a string, say; it has no [filter]). *)
Inductive Result : Type :=
| Absent
| Rows (elements : list Element)
| NotArray (lengthTruthy : bool).

(** The body of the exchange's answer: [data.success] and [data.result]. *)
Record Payload : Type := {
  success : jsval;
  result : Result
}.

Record Candle : Type := {
  timestamp : number;
  open : float;
  high : float;
  low : float;
  close : float
}.

(** The rows of an array all of whose elements are objects; [None] when one
    is null. *)
Fixpoint objects (elements : list Element) : option (list Row) :=
  match elements with
  | [] => Some []
  | Null :: _ => None
  | Object row :: rest =>
      match objects rest with
      | Some rows => Some (row :: rows)
      | None => None
      end
  end.

(** The predicate of [.filter]: [c.open && c.high && c.low && c.close && c.time]. *)
Definition keepRow (c : Row) : bool :=
  truthy (js_and (js_and (js_and (js_and (row_open c) (row_high c)) (row_low c)) (row_close c)) (row_time c)).

(** The comparator [(a, b) => a.timestamp - b.timestamp]. *)
Definition compareFn (a b : Candle) : number := minus (timestamp a) (timestamp b).

(** What [sort] makes of a comparator's value: NaN counts as 0. *)
Definition SortCompare (v : number) : Z :=
  match v with
  | Num z => z
  | NaN => 0%Z
  end.

(** A stable sort under a consistent comparator has one possible result,
    the one an insertion from the right produces. *)
Fixpoint insertCandle (a : Candle) (sorted : list Candle) : list Candle :=
  match sorted with
  | [] => [a]
  | b :: rest =>
      if (SortCompare (compareFn b a) <? 0)%Z then b :: insertCandle a rest
      else a :: b :: rest
  end.

(** The integers among the timestamps. *)
Fixpoint stamps (cs : list Candle) : list Z :=
  match cs with
  | [] => []
  | c :: rest =>
      match timestamp c with
      | Num z => z :: stamps rest
      | NaN => stamps rest
      end
  end.

Definition allSame (zs : list Z) : bool :=
  match zs with
  | [] => true
  | z :: rest => forallb (Z.eqb z) rest
  end.

(** [compareFn] is a consistent comparator on [cs] when no timestamp is NaN
    (the order of the integers), and when with a NaN timestamp, which
    compares as equal to everything, all the integers are the same; else it
    puts a NaN level with two timestamps it tells apart. *)
Definition consistentOn (cs : list Candle) : bool :=
  forallb (fun c => isNum (timestamp c)) cs || allSame (stamps cs).

Section Gateway.

Context {host : Host}.

(** [.sort((a, b) => a.timestamp - b.timestamp)] *)
Definition sortByTimestamp (cs : list Candle) : list Candle :=
  if consistentOn cs then fold_right insertCandle [] cs
  else Array_sort_inconsistent Candle compareFn cs.

(** The function of [.map]. *)
Definition toCandle (c : Row) : Candle :=
  {| timestamp := times (parseInt (row_time c)) 1000;
     open := parseFloat (row_open c);
     high := parseFloat (row_high c);
     low := parseFloat (row_low c);
     close := parseFloat (row_close c) |}.

(** The pipeline [filter], [map], [sort] on the rows of an answer. *)
Definition normalize (rows : list Row) : list Candle :=
  sortByTimestamp (map toCandle (filter keepRow rows)).

(** [fetchData], given what [axios.get] came back with: [None] when it threw
    (network error, timeout) or the body is null, and the body otherwise.
    The result [None] is the [null] the function returns: from the guard,
    or from the [catch] when [.filter] is no function or [c.open] is read
    from null. *)
Definition fetchData (response : option Payload) : option (list Candle) :=
  match response with
  | None => None
  | Some data =>
      if negb (truthy (success data)) then None
      else
        match result data with
        | Absent => None
        | NotArray lengthTruthy => None
        | Rows elements =>
            if (length elements =? 0)%nat then None
            else
              match objects elements with
              | None => None
              | Some rows => Some (normalize rows)
              end
        end
  end.

End Gateway.

(** ** Trend monitor: what the three files share *)

Inductive Trend : Type := UPTREND | DOWNTREND.

Definition Trend_eqb (a b : Trend) : bool :=
  match a, b with
  | UPTREND, UPTREND | DOWNTREND, DOWNTREND => true
  | _, _ => false
  end.

(** [trend !== lastTrend], where [lastTrend] starts as [null]. *)
Definition trendDiffers (trend : Trend) (lastTrend : option Trend) : bool :=
  match lastTrend with
  | None => true
  | Some t => negb (Trend_eqb trend t)
  end.

(** [candleTs === lastCandleTs], where [lastCandleTs] starts as [null]. *)
Definition sameCandle (candleTs : number) (lastCandleTs : option number) : bool :=
  match lastCandleTs with
  | None => false
  | Some ts => strictEq candleTs ts
  end.

Definition trendName (t : Trend) : string :=
  match t with
  | UPTREND => "UPTREND"
  | DOWNTREND => "DOWNTREND"
  end.

(** An entry [{ trend, time }] of the event log. *)
Record LogEntry : Type := {
  trend : Trend;
  time : string
}.

(** [logs.push(e); if (logs.length > 50) logs = logs.slice(-50);] *)
Definition pushLog (logs : list LogEntry) (e : LogEntry) : list LogEntry :=
  let logs := logs ++ [e] in
  if (50 <? length logs)%nat then slice_last 50 logs else logs.

(** The environment variables the program reads once at startup. *)
Record Env : Type := {
  BOT_TOKEN : option string;
  CHAT_ID : option string
}.

(** [!x] for an environment variable: unset or empty. *)
Definition missing (x : option string) : bool :=
  match x with
  | None => true
  | Some s => String.eqb s EmptyString
  end.

(** What a cycle does to the outside world, in order.  Console output is
    left out. *)
Inductive Effect : Type :=
| Sleep (ms : Z)                      (* await setTimeout(r, ms) *)
| Notify (msg : string)               (* sendTelegram(msg) is entered *)
| Post (env : Env) (text : string)    (* axios.post to the Telegram API *)
| Emit (logs : list LogEntry).        (* io.emit('log-update', logs) *)

(** What the outside world feeds one cycle: the answer to the candle
    request, [Date.now()] when the notifier runs, and whether a post to
    Telegram goes through. *)
Record Poll : Type := {
  response : option Payload;
  now : Z;
  postOk : bool
}.

Definition SYMBOL : string := "BTC_USDT".
Definition RESOLUTION : string := "2h".
Definition length1 : float := 8%float.
Definition a1 : float := 0.7%float.
Definition length2 : float := 5%float.
Definition a2 : float := 0.618%float.

Definition newline : string := String (ascii_of_nat 10) EmptyString.

(** [Math.floor] on an exact quotient. *)
Definition Math_floor (x : Q) : Z := Qfloor x.

(** An expression [f(x)] of divisions and [Math.floor] on a number: on an
    integer as [f] has it, NaN on NaN. *)
Definition onNumber (f : Z -> Z) (x : number) : number :=
  match x with
  | Num z => Num (f z)
  | NaN => NaN
  end.

(** How startup ends: the process exits, or the server listens and
    [strategyLoop] runs or not. *)
Inductive Startup (St : Type) : Type :=
| Exit (code : Z)
| Listening (state : St) (runsLoop : bool).

Arguments Exit {St} code.
Arguments Listening {St} state runsLoop.

(** [color.at(-1) === c] *)
Definition lastIs (c : color) (cs : list color) : bool :=
  match at_last cs with
  | Some d => color_eqb d c
  | None => false
  end.

(** [msg.replace(/<[^>]*>/g, '')]: every stretch from a '<' to the next '>'
    goes; a '<' with no '>' after it stays. *)
Fixpoint hasGt (s : string) : bool :=
  match s with
  | EmptyString => false
  | String c rest => Ascii.eqb c ">" || hasGt rest
  end.

Fixpoint stripFrom (inTag : bool) (s : string) : string :=
  match s with
  | EmptyString => EmptyString
  | String c rest =>
      if inTag then stripFrom (negb (Ascii.eqb c ">")) rest
      else if Ascii.eqb c "<" && hasGt rest then stripFrom true rest
      else String c (stripFrom false rest)
  end.

Definition stripTags (msg : string) : string := stripFrom false msg.

(** ** [bot.js] *)

Module Bot.

Record State : Type := {
  lastTrend : option Trend;
  lastCandleTs : option number;
  logs : list LogEntry
}.

Definition initial : State :=
  {| lastTrend := None; lastCandleTs := None; logs := [] |}.

Definition POLL_INTERVAL : Z := 15000.

(** Top level of the file: without both credentials the process exits with
    status 1 before the server listens. *)
Definition startup (env : Env) : Startup State :=
  if missing (BOT_TOKEN env) || missing (CHAT_ID env) then Exit 1
  else Listening initial true.

(** No check and no state: every call posts; a failure is caught and logged. *)
Definition sendTelegram (env : Env) (msg : string) : list Effect :=
  [Post env msg].

Definition candleTs (last : Candle) : number :=
  onNumber (fun ts => Math_floor (inject_Z ts)) (timestamp last).

Section Loop.

Context {host : Host}.

Definition message (uptrend : bool) (trend : Trend) (last : Candle) (istTime : string) : string :=
  ((if uptrend then "🟢" else "🔴") ++ " <b>" ++ trendName trend ++ "</b>" ++ newline
   ++ SYMBOL ++ ": $" ++ toLocaleString (close last) ++ newline
   ++ RESOLUTION ++ " " ++ istTime)%string.

(** One turn of the [while (true)] of [strategyLoop]. *)
Definition cycle (env : Env) (st : State) (poll : Poll) : State * list Effect :=
  match fetchData (response poll) with
  | None => (st, [Sleep POLL_INTERVAL])
  | Some df =>
      if (length df <? 20)%nat then (st, [Sleep POLL_INTERVAL])
      else
        let t3 := tillsonT3Series (map high df) (map low df) (map close df) length1 a1 in
        let t3f := tillsonT3Series (map high df) (map low df) (map close df) length2 a2 in
        let color1 := colors t3 in
        let color2 := colors t3f in
        match at_last df with
        | None => (st, [Sleep POLL_INTERVAL])   (* TypeError, caught *)
        | Some last =>
            let candleTs := candleTs last in
            if sameCandle candleTs (lastCandleTs st) then (st, [Sleep POLL_INTERVAL])
            else
              let st := {| lastTrend := lastTrend st; lastCandleTs := Some candleTs; logs := logs st |} in
              let uptrend := lastIs green color1 && lastIs green color2 in
              let downtrend := lastIs red color1 && lastIs red color2 in
              if negb uptrend && negb downtrend then (st, [Sleep POLL_INTERVAL])
              else
                let trend := if uptrend then UPTREND else DOWNTREND in
                if trendDiffers trend (lastTrend st) then
                  let istTime := formatIST candleTs in
                  let logs := pushLog (logs st) {| trend := trend; time := istTime |} in
                  let msg := message uptrend trend last istTime in
                  ({| lastTrend := Some trend; lastCandleTs := lastCandleTs st; logs := logs |},
                   Notify msg :: sendTelegram env msg ++ [Emit logs; Sleep POLL_INTERVAL])
                else (st, [Sleep POLL_INTERVAL])
        end
  end.

(** The loop over the polls of a run, as far as they go. *)
Fixpoint strategyLoop (env : Env) (st : State) (polls : list Poll) : State * list Effect :=
  match polls with
  | [] => (st, [])
  | poll :: rest =>
      let (st1, out1) := cycle env st poll in
      let (st2, out2) := strategyLoop env st1 rest in
      (st2, out1 ++ out2)
  end.

(** The candle timestamp a poll leads the cycle to compare, if it gets there. *)
Definition pollCandleTs (poll : Poll) : option number :=
  match fetchData (response poll) with
  | None => None
  | Some df => if (length df <? 20)%nat then None else option_map candleTs (at_last df)
  end.

(** The state while a turn awaits [sendTelegram], if the turn gets there:
    the entry is on the log, the trend not yet recorded.  The handlers of
    the HTTP server can read the state at this point. *)
Definition awaiting (st : State) (poll : Poll) : option State :=
  match fetchData (response poll) with
  | None => None
  | Some df =>
      if (length df <? 20)%nat then None
      else
        let t3 := tillsonT3Series (map high df) (map low df) (map close df) length1 a1 in
        let t3f := tillsonT3Series (map high df) (map low df) (map close df) length2 a2 in
        let color1 := colors t3 in
        let color2 := colors t3f in
        match at_last df with
        | None => None
        | Some last =>
            let candleTs := candleTs last in
            if sameCandle candleTs (lastCandleTs st) then None
            else
              let uptrend := lastIs green color1 && lastIs green color2 in
              let downtrend := lastIs red color1 && lastIs red color2 in
              if negb uptrend && negb downtrend then None
              else
                let trend := if uptrend then UPTREND else DOWNTREND in
                if trendDiffers trend (lastTrend st) then
                  Some {| lastTrend := lastTrend st; lastCandleTs := Some candleTs;
                          logs := pushLog (logs st)
                                    {| trend := trend; time := formatIST candleTs |} |}
                else None
        end
  end.

End Loop.

End Bot.


(** ** [part_000]: leader guard, cooldown, 2 hour boundary *)

Module Part000.

(** [global.botState] *)
Record botState : Type := {
  lastTrend : option Trend;
  lastCandleTs : option number;
  lastAlertTs : Z;
  logs : list LogEntry;
  leaderPID : Z;
  isLeader : bool
}.

Definition POLL_INTERVAL : Z := 30000.

(** Top level of the file: the first load in a process creates the shared
    state and leads; a load that finds it there becomes a follower.  The
    credentials are not looked at. *)
Definition startup (pid : Z) (existing : option botState) (env : Env) : Startup botState :=
  match existing with
  | None =>
      Listening {| lastTrend := None; lastCandleTs := None; lastAlertTs := 0;
                   logs := []; leaderPID := pid; isLeader := true |} true
  | Some st =>
      Listening {| lastTrend := lastTrend st; lastCandleTs := lastCandleTs st;
                   lastAlertTs := lastAlertTs st; logs := logs st;
                   leaderPID := leaderPID st; isLeader := false |} false
  end.

Definition setLastAlertTs (st : botState) (ts : Z) : botState :=
  {| lastTrend := lastTrend st; lastCandleTs := lastCandleTs st; lastAlertTs := ts;
     logs := logs st; leaderPID := leaderPID st; isLeader := isLeader st |}.

Definition setLastCandleTs (st : botState) (ts : number) : botState :=
  {| lastTrend := lastTrend st; lastCandleTs := Some ts; lastAlertTs := lastAlertTs st;
     logs := logs st; leaderPID := leaderPID st; isLeader := isLeader st |}.

Definition setLogs (st : botState) (l : list LogEntry) : botState :=
  {| lastTrend := lastTrend st; lastCandleTs := lastCandleTs st; lastAlertTs := lastAlertTs st;
     logs := l; leaderPID := leaderPID st; isLeader := isLeader st |}.

Definition setLastTrend (st : botState) (t : Trend) : botState :=
  {| lastTrend := Some t; lastCandleTs := lastCandleTs st; lastAlertTs := lastAlertTs st;
     logs := logs st; leaderPID := leaderPID st; isLeader := isLeader st |}.

(** [sendTelegram] at time [now]; [postOk] tells whether [axios.post] resolves
    or throws.  The delivery time is recorded after a post that went through. *)
Definition sendTelegram (env : Env) (st : botState) (now : Z) (postOk : bool) (msg : string)
  : botState * list Effect :=
  if (now - lastAlertTs st <? 10 * 60 * 1000)%Z then (st, [])
  else if missing (BOT_TOKEN env) || missing (CHAT_ID env) then (st, [])
  else if postOk then (setLastAlertTs st now, [Post env msg])
  else (st, [Post env msg]).

(** [Math.floor(last.timestamp / 1000 / 7200) * 7200 * 1000] *)
Definition candleTs (last : Candle) : number :=
  onNumber (fun ts => (Math_floor (inject_Z ts / 1000 / 7200) * 7200 * 1000)%Z)
    (timestamp last).

Section Loop.

Context {host : Host}.

Definition message (uptrend : bool) (trend : Trend) (last : Candle) (istTime : string) : string :=
  ((if uptrend then "🟢" else "🔴") ++ " <b>" ++ trendName trend ++ "</b>" ++ newline
   ++ SYMBOL ++ ": $" ++ toLocaleString (close last) ++ newline
   ++ RESOLUTION ++ " " ++ istTime)%string.

(** One turn of the [while (true)] of [strategyLoop].  The turn that finds no
    agreeing colours goes on without sleeping. *)
Definition cycle (env : Env) (st : botState) (poll : Poll) : botState * list Effect :=
  match fetchData (response poll) with
  | None => (st, [Sleep POLL_INTERVAL])
  | Some df =>
      if (length df <? 20)%nat then (st, [Sleep POLL_INTERVAL])
      else
        let t3 := tillsonT3Series (map high df) (map low df) (map close df) length1 a1 in
        let t3f := tillsonT3Series (map high df) (map low df) (map close df) length2 a2 in
        let color1 := colors t3 in
        let color2 := colors t3f in
        match at_last df with
        | None => (st, [Sleep POLL_INTERVAL])   (* TypeError, caught *)
        | Some last =>
            let candleTs := candleTs last in
            if sameCandle candleTs (lastCandleTs st) then (st, [Sleep POLL_INTERVAL])
            else
              let st := setLastCandleTs st candleTs in
              let uptrend := lastIs green color1 && lastIs green color2 in
              let downtrend := lastIs red color1 && lastIs red color2 in
              if negb uptrend && negb downtrend then (st, [])
              else
                let trend := if uptrend then UPTREND else DOWNTREND in
                if trendDiffers trend (lastTrend st) then
                  let istTime := formatIST candleTs in
                  let st := setLogs st (pushLog (logs st) {| trend := trend; time := istTime |}) in
                  let msg := message uptrend trend last istTime in
                  let (st, posted) := sendTelegram env st (now poll) (postOk poll) msg in
                  let st := setLastTrend st trend in
                  (st, Notify msg :: posted ++ [Emit (logs st); Sleep POLL_INTERVAL])
                else (st, [Sleep POLL_INTERVAL])
        end
  end.

Fixpoint turns (env : Env) (st : botState) (polls : list Poll) : botState * list Effect :=
  match polls with
  | [] => (st, [])
  | poll :: rest =>
      let (st1, out1) := cycle env st poll in
      let (st2, out2) := turns env st1 rest in
      (st2, out1 ++ out2)
  end.

(** The loop over the polls of a run, as far as they go; a follower returns
    at once. *)
Definition strategyLoop (env : Env) (st : botState) (polls : list Poll) : botState * list Effect :=
  if negb (isLeader st) then (st, []) else turns env st polls.

Definition pollCandleTs (poll : Poll) : option number :=
  match fetchData (response poll) with
  | None => None
  | Some df => if (length df <? 20)%nat then None else option_map candleTs (at_last df)
  end.

(** The state while a turn awaits [sendTelegram], if the turn gets there:
    the entry is on the log, trend and delivery time not yet recorded.  The
    handlers of the HTTP server can read the state at this point. *)
Definition awaiting (st : botState) (poll : Poll) : option botState :=
  match fetchData (response poll) with
  | None => None
  | Some df =>
      if (length df <? 20)%nat then None
      else
        let t3 := tillsonT3Series (map high df) (map low df) (map close df) length1 a1 in
        let t3f := tillsonT3Series (map high df) (map low df) (map close df) length2 a2 in
        let color1 := colors t3 in
        let color2 := colors t3f in
        match at_last df with
        | None => None
        | Some last =>
            let candleTs := candleTs last in
            if sameCandle candleTs (lastCandleTs st) then None
            else
              let st := setLastCandleTs st candleTs in
              let uptrend := lastIs green color1 && lastIs green color2 in
              let downtrend := lastIs red color1 && lastIs red color2 in
              if negb uptrend && negb downtrend then None
              else
                let trend := if uptrend then UPTREND else DOWNTREND in
                if trendDiffers trend (lastTrend st) then
                  Some (setLogs st (pushLog (logs st)
                                      {| trend := trend; time := formatIST candleTs |}))
                else None
        end
  end.

End Loop.

End Part000.

(** ** [part_001]: credentials optional *)

Module Part001.

Record State : Type := {
  lastTrend : option Trend;
  lastCandleTs : option number;
  logs : list LogEntry
}.

Definition initial : State :=
  {| lastTrend := None; lastCandleTs := None; logs := [] |}.

Definition POLL_INTERVAL : Z := 15000.

(** Top level of the file: the credentials are not looked at. *)
Definition startup (env : Env) : Startup State := Listening initial true.

(** Without both credentials nothing is sent; otherwise the message goes out
    with its tags stripped. *)
Definition sendTelegram (env : Env) (msg : string) : list Effect :=
  if missing (BOT_TOKEN env) || missing (CHAT_ID env) then []
  else [Post env (stripTags msg)].

Definition candleTs (last : Candle) : number :=
  onNumber (fun ts => Math_floor (inject_Z ts)) (timestamp last).

Section Loop.

Context {host : Host}.

Definition message (uptrend : bool) (trend : Trend) (last : Candle) (istTime : string) : string :=
  ((if uptrend then "🟢" else "🔴") ++ " " ++ trendName trend ++ newline
   ++ SYMBOL ++ ": $" ++ toLocaleString (close last) ++ newline
   ++ RESOLUTION ++ " " ++ istTime)%string.

(** One turn of the [while (true)] of [strategyLoop]. *)
Definition cycle (env : Env) (st : State) (poll : Poll) : State * list Effect :=
  match fetchData (response poll) with
  | None => (st, [Sleep POLL_INTERVAL])
  | Some df =>
      if (length df <? 20)%nat then (st, [Sleep POLL_INTERVAL])
      else
        let t3 := tillsonT3Series (map high df) (map low df) (map close df) length1 a1 in
        let t3f := tillsonT3Series (map high df) (map low df) (map close df) length2 a2 in
        let color1 := colors t3 in
        let color2 := colors t3f in
        match at_last df with
        | None => (st, [Sleep POLL_INTERVAL])   (* TypeError, caught *)
        | Some last =>
            let candleTs := candleTs last in
            if sameCandle candleTs (lastCandleTs st) then (st, [Sleep POLL_INTERVAL])
            else
              let st := {| lastTrend := lastTrend st; lastCandleTs := Some candleTs; logs := logs st |} in
              let uptrend := lastIs green color1 && lastIs green color2 in
              let downtrend := lastIs red color1 && lastIs red color2 in
              if negb uptrend && negb downtrend then (st, [Sleep POLL_INTERVAL])
              else
                let trend := if uptrend then UPTREND else DOWNTREND in
                if trendDiffers trend (lastTrend st) then
                  let istTime := formatIST candleTs in
                  let logs := pushLog (logs st) {| trend := trend; time := istTime |} in
                  let msg := message uptrend trend last istTime in
                  ({| lastTrend := Some trend; lastCandleTs := lastCandleTs st; logs := logs |},
                   Notify msg :: sendTelegram env msg ++ [Emit logs; Sleep POLL_INTERVAL])
                else (st, [Sleep POLL_INTERVAL])
        end
  end.

Fixpoint strategyLoop (env : Env) (st : State) (polls : list Poll) : State * list Effect :=
  match polls with
  | [] => (st, [])
  | poll :: rest =>
      let (st1, out1) := cycle env st poll in
      let (st2, out2) := strategyLoop env st1 rest in
      (st2, out1 ++ out2)
  end.

Definition pollCandleTs (poll : Poll) : option number :=
  match fetchData (response poll) with
  | None => None
  | Some df => if (length df <? 20)%nat then None else option_map candleTs (at_last df)
  end.

(** The state while a turn awaits [sendTelegram], if the turn gets there:
    the entry is on the log, the trend not yet recorded.  The handlers of
    the HTTP server can read the state at this point. *)
Definition awaiting (st : State) (poll : Poll) : option State :=
  match fetchData (response poll) with
  | None => None
  | Some df =>
      if (length df <? 20)%nat then None
      else
        let t3 := tillsonT3Series (map high df) (map low df) (map close df) length1 a1 in
        let t3f := tillsonT3Series (map high df) (map low df) (map close df) length2 a2 in
        let color1 := colors t3 in
        let color2 := colors t3f in
        match at_last df with
        | None => None
        | Some last =>
            let candleTs := candleTs last in
            if sameCandle candleTs (lastCandleTs st) then None
            else
              let uptrend := lastIs green color1 && lastIs green color2 in
              let downtrend := lastIs red color1 && lastIs red color2 in
              if negb uptrend && negb downtrend then None
              else
                let trend := if uptrend then UPTREND else DOWNTREND in
                if trendDiffers trend (lastTrend st) then
                  Some {| lastTrend := lastTrend st; lastCandleTs := Some candleTs;
                          logs := pushLog (logs st)
                                    {| trend := trend; time := formatIST candleTs |} |}
                else None
        end
  end.

End Loop.

End Part001.

(** The timestamp of the latest candle a poll leads a turn to, if the turn
    gets there. *)
Definition latestTimestamp {host : Host} (poll : Poll) : option number :=
  match fetchData (response poll) with
  | None => None
  | Some df => if (length df <? 20)%nat then None else option_map timestamp (at_last df)
  end.

(** ** A concrete host and concrete data, to run the definitions on *)

(** Truncation of a binary64 number to an integer (0 for NaN and the
    infinities). *)
Definition truncZ (x : float) : Z :=
  match Prim2SF x with
  | S754_finite s m e =>
      let abs := if (0 <=? e)%Z then (Z.pos m * 2 ^ e)%Z else Z.shiftr (Z.pos m) (- e) in
      if s then (- abs)%Z else abs
  | _ => 0%Z
  end.

Definition floatOfZ (z : Z) : float := PrimFloat.of_uint63 (Uint63.of_Z z).

Definition decimal (z : Z) : string := DecimalString.NilZero.string_of_int (Z.to_int z).

(** Enough of a host to evaluate a cycle: powers by repeated multiplication
    for the two exponents the program uses, parsing of JSON numbers (NaN
    for everything else), plain decimal printing, and a sort that leaves an
    array alone when its comparator is not consistent. *)
Definition sampleHost : Host := {|
  Math_pow := fun a n =>
    if PrimFloat.eqb n 2 then (a * a)%float
    else if PrimFloat.eqb n 3 then (a * a * a)%float
    else PrimFloat.nan;
  parseInt := fun v =>
    match v with
    | JNum x =>
        match Prim2SF x with
        | S754_finite _ _ _ => Num (truncZ x)
        | S754_zero _ => Num 0
        | _ => NaN
        end
    | _ => NaN
    end;
  parseFloat := fun v => match v with JNum x => x | _ => PrimFloat.nan end;
  toLocaleString := fun x => decimal (truncZ x);
  formatIST := fun ts =>
    match ts with
    | Num z => decimal z
    | NaN => "Invalid date"%string
    end;
  Array_sort_inconsistent := fun A compare arr => arr;
  Array_sort_inconsistent_perm := fun A compare arr => Permutation_refl arr
|}.

(** A row of the exchange for the bar that opens at [t] seconds, all four
    prices equal to [price]. *)
Definition sampleRow (t : Z) (price : float) : Row :=
  {| row_time := JNum (floatOfZ t);
     row_open := JNum price; row_high := JNum price;
     row_low := JNum price; row_close := JNum price |}.

(** [n] consecutive 2 hour bars from second [t0] on, the price going up by
    [step] from [p0]. *)
Fixpoint sampleRows (n : nat) (t0 : Z) (p0 step : float) : list Row :=
  match n with
  | O => []
  | S k => sampleRow t0 p0 :: sampleRows k (t0 + 7200)%Z (p0 + step)%float step
  end.

Definition samplePoll (rows : list Row) : Poll :=
  {| response := Some {| success := JBool true; result := Rows (map Object rows) |};
     now := 1700000000000%Z; postOk := true |}.

Definition sampleEnv : Env :=
  {| BOT_TOKEN := Some "token"%string; CHAT_ID := Some "chat"%string |}.

Definition noCredentials : Env :=
  {| BOT_TOKEN := None; CHAT_ID := None |}.

(** 25 rising bars, and the same window one bar later. *)
Definition risingPoll : Poll := samplePoll (sampleRows 25 1699920000 60000 10).
Definition nextPoll : Poll := samplePoll (sampleRows 25 1699927200 60010 10).
(** 5 bars only. *)
Definition shortPoll : Poll := samplePoll (sampleRows 5 1699920000 60000 10).
(** A request that failed. *)
Definition failedPoll : Poll :=
  {| response := None; now := 1700000000000%Z; postOk := true |}.

(** ** Vocabulary of the claims *)

(** The number zero, of either sign. *)
Definition isZero (v : jsval) : bool :=
  match v with
  | JNum x => PrimFloat.eqb x 0%float
  | _ => false
  end.

(** The property is there, whatever its value. *)
Definition present (v : jsval) : bool :=
  match v with
  | JUndefined => false
  | _ => true
  end.

Definition hasZeroField (c : Row) : Prop :=
  isZero (row_open c) = true \/ isZero (row_high c) = true \/ isZero (row_low c) = true
  \/ isZero (row_close c) = true \/ isZero (row_time c) = true.

Definition allPresent (c : Row) : Prop :=
  present (row_open c) = true /\ present (row_high c) = true /\ present (row_low c) = true
  /\ present (row_close c) = true /\ present (row_time c) = true.

(** A row with every field there and an opening price of zero. *)
Definition zeroOpenRow : Row :=
  {| row_time := JNum (floatOfZ 1699920000); row_open := JNum 0%float;
     row_high := JNum 60010%float; row_low := JNum 59990%float;
     row_close := JNum 60000%float |}.

Definition isPost (e : Effect) : bool :=
  match e with
  | Post _ _ => true
  | _ => false
  end.

Definition isNotify (e : Effect) : bool :=
  match e with
  | Notify _ => true
  | _ => false
  end.

Definition isEmit (e : Effect) : bool :=
  match e with
  | Emit _ => true
  | _ => false
  end.

(** The 2 hour bar boundary at or below a timestamp in milliseconds. *)
Definition barBoundary (ts : Z) : Z := (ts / 7200000 * 7200000)%Z.

(** The states a run of [bot.js] goes through, turn after turn. *)
Inductive Bot_reachable {host : Host} (env : Env) : Bot.State -> Prop :=
| Bot_reach_initial : Bot_reachable env Bot.initial
| Bot_reach_cycle st poll :
    Bot_reachable env st -> Bot_reachable env (fst (Bot.cycle env st poll)).

(** The states a leader of [part_000] goes through, from the state its
    startup creates. *)
Inductive Part000_reachable {host : Host} (env : Env) (pid : Z) : Part000.botState -> Prop :=
| Part000_reach_initial st runs :
    Part000.startup pid None env = Listening st runs -> Part000_reachable env pid st
| Part000_reach_cycle st poll :
    Part000_reachable env pid st -> Part000_reachable env pid (fst (Part000.cycle env st poll)).

(** The states a run of [part_001] goes through. *)
Inductive Part001_reachable {host : Host} (env : Env) : Part001.State -> Prop :=
| Part001_reach_initial : Part001_reachable env Part001.initial
| Part001_reach_cycle st poll :
    Part001_reachable env st -> Part001_reachable env (fst (Part001.cycle env st poll)).


(** 25 falling bars, one bar after [risingPoll], polled 15 seconds later. *)
Definition fallingPoll : Poll :=
  {| response := Some {| success := JBool true;
                         result :=
                           Rows (map Object (sampleRows 25 1699927200 60000 (-10))) |};
     now := 1700000015000%Z; postOk := true |}.

(** 25 rising bars whose latest is stamped 1700000000 s, and 25 falling bars
    whose latest is stamped a minute later, inside the same 2 hour bar,
    polled 15 seconds after the first. *)
Definition midBarRisingPoll : Poll := samplePoll (sampleRows 25 1699827200 60000 10).
Definition midBarFallingPoll : Poll :=
  {| response := Some {| success := JBool true;
                         result :=
                           Rows (map Object (sampleRows 25 1699827260 60000 (-10))) |};
     now := 1700000015000%Z; postOk := true |}.

(** A candle stamped 2023-11-14 22:13:20 UTC, inside a 2 hour bar. *)
Definition offBoundaryCandle : Candle :=
  {| timestamp := Num 1700000000000; open := 60000; high := 60010; low := 59990;
     close := 60005 |}.

Definition sampleEntry : LogEntry := {| trend := UPTREND; time := "2023-11-15 03:30 IST" |}.
Definition newestEntry : LogEntry := {| trend := DOWNTREND; time := "2023-11-15 05:30 IST" |}.

(** The leader state a first load creates. *)
Definition Part000_initial (pid : Z) : Part000.botState :=
  {| Part000.lastTrend := None; Part000.lastCandleTs := None; Part000.lastAlertTs := 0;
     Part000.logs := []; Part000.leaderPID := pid; Part000.isLeader := true |}.


(** ** Vocabulary of the further properties *)

(** The order [fetchData] sorts by: both timestamps are integers, the
    first at most the second. *)
Definition earlier (a b : Candle) : Prop :=
  match timestamp a, timestamp b with
  | Num x, Num y => (x <= y)%Z
  | _, _ => False
  end.

(** No timestamp is NaN. *)
Definition stamped (cs : list Candle) : Prop :=
  forall c, In c cs -> timestamp c <> NaN.

(** Three rows out of order, two of them for the same bar, and one row with
    no close. *)
Definition shuffledRows : list Row :=
  [ sampleRow 1699927200 60020; sampleRow 1699920000 60010;
    {| row_time := JNum (floatOfZ 1699912800); row_open := JNum 60000%float;
       row_high := JNum 60000%float; row_low := JNum 60000%float;
       row_close := JUndefined |};
    sampleRow 1699920000 60015 ].

Definition shuffledPayload : Payload :=
  {| success := JBool true; result := Rows (map Object shuffledRows) |}.



(** The string holds a '<'. *)
Fixpoint hasLt (s : string) : bool :=
  match s with
  | EmptyString => false
  | String c rest => Ascii.eqb c "<" || hasLt rest
  end.

(** No '<' of the string has a '>' after it: the pattern [<[^>]*>] matches
    nowhere. *)
Fixpoint noTag (s : string) : bool :=
  match s with
  | EmptyString => true
  | String c rest => negb (Ascii.eqb c "<" && hasGt rest) && noTag rest
  end.

(** Neighbouring entries of the log differ in trend. *)
Fixpoint alternates (l : list LogEntry) : bool :=
  match l with
  | [] => true
  | a :: rest =>
      match rest with
      | [] => true
      | b :: _ => negb (Trend_eqb (trend a) (trend b)) && alternates rest
      end
  end.

(** A turn that neither calls the notifier nor posts nor broadcasts. *)
Definition quiet (out : list Effect) : Prop :=
  filter isNotify out = [] /\ filter isPost out = [] /\ filter isEmit out = [].

(** A turn that calls the notifier once and broadcasts [logs] once, posting
    at most once. *)
Definition announces (logs : list LogEntry) (out : list Effect) : Prop :=
  (exists msg, filter isNotify out = [Notify msg])
  /\ filter isEmit out = [Emit logs]
  /\ (length (filter isPost out) <= 1)%nat.

(** What holds of trend and log together. *)
Definition consistent (lastTrend : option Trend) (logs : list LogEntry) : Prop :=
  option_map trend (at_last logs) = lastTrend
  /\ alternates logs = true
  /\ (length logs <= 50)%nat.


(** The counts of one turn: as many broadcasts as notifier calls, at most
    one of either, no more posts than notifier calls, and the log longer by
    at most the number of notifier calls. *)
Definition tally (before after : list LogEntry) (out : list Effect) : Prop :=
  length (filter isEmit out) = length (filter isNotify out)
  /\ (length (filter isPost out) <= length (filter isNotify out))%nat
  /\ (length (filter isNotify out) <= 1)%nat
  /\ (length after <= length before + length (filter isNotify out))%nat.

(** The trend a turn reads off the candles: UPTREND when the last colour
    of both series is green, DOWNTREND when it is red for both, none
    otherwise. *)
Definition signal {host : Host} (df : list Candle) : option Trend :=
  let t3 := tillsonT3Series (map high df) (map low df) (map close df) length1 a1 in
  let t3f := tillsonT3Series (map high df) (map low df) (map close df) length2 a2 in
  let color1 := colors t3 in
  let color2 := colors t3f in
  let uptrend := lastIs green color1 && lastIs green color2 in
  let downtrend := lastIs red color1 && lastIs red color2 in
  if negb uptrend && negb downtrend then None
  else Some (if uptrend then UPTREND else DOWNTREND).

(** The states a handler of the HTTP server can find [bot.js] in: those
    between turns, and the one a turn is in while it awaits the notifier. *)
Inductive Bot_observable {host : Host} (env : Env) : Bot.State -> Prop :=
| Bot_obs_between st : Bot_reachable env st -> Bot_observable env st
| Bot_obs_awaiting st poll mid :
    Bot_reachable env st -> Bot.awaiting st poll = Some mid -> Bot_observable env mid.

Inductive Part000_observable {host : Host} (env : Env) (pid : Z) : Part000.botState -> Prop :=
| Part000_obs_between st : Part000_reachable env pid st -> Part000_observable env pid st
| Part000_obs_awaiting st poll mid :
    Part000_reachable env pid st -> Part000.awaiting st poll = Some mid ->
    Part000_observable env pid mid.

Inductive Part001_observable {host : Host} (env : Env) : Part001.State -> Prop :=
| Part001_obs_between st : Part001_reachable env st -> Part001_observable env st
| Part001_obs_awaiting st poll mid :
    Part001_reachable env st -> Part001.awaiting st poll = Some mid ->
    Part001_observable env mid.


(** ** Lemmas on the array helpers *)

Lemma map_from_length {A B : Type} (f : A -> nat -> B) (arr : list A) :
  forall i, length (map_from f i arr) = length arr.
Proof.
  induction arr as [|x rest IH]; intro i; simpl.
  - reflexivity.
  - now rewrite IH.
Qed.

Lemma Array_map_length {A B : Type} (f : A -> nat -> B) (arr : list A) :
  length (Array_map f arr) = length arr.
Proof. apply map_from_length. Qed.

Lemma map_from_nth_error {A B : Type} (f : A -> nat -> B) (arr : list A) :
  forall i k x,
    nth_error arr k = Some x ->
    nth_error (map_from f i arr) k = Some (f x (i + k)%nat).
Proof.
  induction arr as [|y rest IH]; intros i k x Hk.
  - destruct k; discriminate.
  - destruct k as [|k]; simpl in *.
    + injection Hk as ->. now rewrite Nat.add_0_r.
    + rewrite (IH (S i) k x Hk). now rewrite Nat.add_succ_r.
Qed.

Lemma Array_map_nth_error {A B : Type} (f : A -> nat -> B) (arr : list A) k x :
  nth_error arr k = Some x ->
  nth_error (Array_map f arr) k = Some (f x k).
Proof. intro Hk. unfold Array_map. now rewrite (map_from_nth_error f arr 0 k x Hk). Qed.

Lemma get_nth_error (arr : list float) i x :
  nth_error arr i = Some x -> get arr i = x.
Proof. intro H. unfold get. now apply nth_error_nth. Qed.

(** ** Lemmas on the indicator engine *)

Lemma ema_loop_length multiplier series :
  forall prev, length (ema_loop multiplier prev series) = length series.
Proof.
  induction series as [|x rest IH]; intro prev; simpl.
  - reflexivity.
  - now rewrite IH.
Qed.

Lemma ema_length series len : length (ema series len) = length series.
Proof.
  unfold ema. destruct series as [|x0 rest]; simpl.
  - reflexivity.
  - now rewrite ema_loop_length.
Qed.

Lemma ema6_length src len : length (ema6 src len) = length src.
Proof. unfold ema6. now rewrite !ema_length. Qed.

Lemma tillsonT3Series_length {host : Host} high low close len a :
  length (tillsonT3Series high low close len a) = length close.
Proof.
  unfold tillsonT3Series. rewrite Array_map_length, !ema_length.
  apply Array_map_length.
Qed.

(** One step of the recurrence of [ema] at a value it reproduces keeps the
    whole loop on that value. *)
Lemma ema_loop_constant multiplier v n :
  (v * multiplier + v * (1 - multiplier))%float = v ->
  ema_loop multiplier v (repeat v n) = repeat v n.
Proof.
  intro Hstep. induction n as [|n IH]; simpl.
  - reflexivity.
  - rewrite Hstep. now rewrite IH.
Qed.

Lemma ema_constant v len n :
  (v * (2 / (len + 1)) + v * (1 - 2 / (len + 1)))%float = v ->
  ema (repeat v n) len = repeat v n.
Proof.
  intro Hstep. destruct n as [|n]; simpl.
  - reflexivity.
  - unfold ema. simpl. now rewrite ema_loop_constant.
Qed.

Lemma ema_head x0 rest len : nth_error (ema (x0 :: rest) len) 0 = Some x0.
Proof. reflexivity. Qed.

(** ** Comparisons of binary64 numbers *)

Lemma SFcompare_refl_not_Lt s : SFcompare s s <> Some Lt.
Proof.
  destruct s as [b|b| |b m e]; simpl; try discriminate.
  - destruct b; discriminate.
  - rewrite Z.compare_refl, Pcompare_refl. destruct b; discriminate.
Qed.

Lemma SFcompare_Eq_sym s t : SFcompare s t = Some Eq -> SFcompare t s = Some Eq.
Proof.
  destruct s as [b|b| |b m e], t as [c|c| |c n f]; simpl; try discriminate; try reflexivity.
  - destruct c; discriminate.
  - destruct c; discriminate.
  - destruct b; discriminate.
  - destruct b, c; try discriminate; reflexivity.
  - destruct b; discriminate.
  - destruct b; discriminate.
  - destruct c; discriminate.
  - destruct b, c; try discriminate.
    + destruct (e ?= f)%Z eqn:Hef; try discriminate.
      apply Z.compare_eq in Hef. subst f. rewrite Z.compare_refl.
      intro H. destruct (Pos.compare_cont Eq m n) eqn:Hmn; try discriminate.
      apply Pos.compare_eq in Hmn. subst n. now rewrite Pcompare_refl.
    + destruct (e ?= f)%Z eqn:Hef; try discriminate.
      apply Z.compare_eq in Hef. subst f. rewrite Z.compare_refl.
      intro H. destruct (Pos.compare_cont Eq m n) eqn:Hmn; try discriminate.
      apply Pos.compare_eq in Hmn. subst n. now rewrite Pcompare_refl.
Qed.

(** [v > v] is false, for NaN too. *)
Lemma ltb_irrefl (v : float) : PrimFloat.ltb v v = false.
Proof.
  rewrite FloatAxioms.ltb_spec. unfold SFltb.
  destruct (SFcompare (Prim2SF v) (Prim2SF v)) as [[| |]|] eqn:H; try reflexivity.
  now apply SFcompare_refl_not_Lt in H.
Qed.

(** [v === prev] excludes [v > prev]. *)
Lemma eqb_not_ltb (v prev : float) :
  PrimFloat.eqb v prev = true -> PrimFloat.ltb prev v = false.
Proof.
  rewrite FloatAxioms.eqb_spec, FloatAxioms.ltb_spec. unfold SFeqb, SFltb.
  destruct (SFcompare (Prim2SF v) (Prim2SF prev)) as [[| |]|] eqn:H; try discriminate.
  intros _. now rewrite (SFcompare_Eq_sym _ _ H).
Qed.

(** Two numbers that [===] tells apart are different. *)
Lemma eqb_false_neq (x y : float) :
  PrimFloat.eqb x y = false -> PrimFloat.eqb y y = true -> x <> y.
Proof. intros Hxy Hyy ->. congruence. Qed.

(** ** Colours *)

Lemma colors_length t3 : length (colors t3) = length t3.
Proof. apply Array_map_length. Qed.

Lemma colors_nth_error t3 i v :
  nth_error t3 i = Some v ->
  nth_error (colors t3) i =
    Some (match i with
          | O => yellow
          | S j => if PrimFloat.ltb (get t3 j) v then green else red
          end).
Proof.
  intro Hi. unfold colors. rewrite (Array_map_nth_error _ t3 i v Hi).
  destruct i as [|j]; [reflexivity|].
  now replace (S j - 1)%nat with j by lia.
Qed.

Lemma ema6_head x0 rest len : nth_error (ema6 (x0 :: rest) len) 0 = Some x0.
Proof. reflexivity. Qed.

Lemma ema6_constant v len n :
  (v * (2 / (len + 1)) + v * (1 - 2 / (len + 1)))%float = v ->
  ema6 (repeat v n) len = repeat v n.
Proof. intro Hstep. unfold ema6. now rewrite !ema_constant. Qed.

(** ** Claims on the indicator engine *)

(** C7.  For every parameter pair (length, a) and every triple of high, low
    and close series of one length, the series [tillsonT3Series] returns has
    that length too; on empty series it returns the empty series. *)
Theorem tillsonT3Series_same_length :
  forall (host : Host) (high low close : list float) (len a : float),
    length high = length close ->
    length low = length close ->
    (length (tillsonT3Series high low close len a) = length close
     /\ length (tillsonT3Series high low close len a) = length high
     /\ length (tillsonT3Series high low close len a) = length low)
    /\ tillsonT3Series [] [] [] len a = [].
Proof.
  intros host high low close len a Hh Hl.
  pose proof (tillsonT3Series_length high low close len a) as Hlen.
  split; [|reflexivity].
  repeat split; congruence.
Qed.

Lemma tillsonT3Series_same_length_witness :
  let high := [3; 4; 5; 6]%float in
  let low := [1; 2; 3; 4]%float in
  let close := [2; 3; 4; 5]%float in
  length (@tillsonT3Series sampleHost high low close length1 a1) = 4%nat.
Proof.
  intros high low close.
  exact (proj1 (proj1 (tillsonT3Series_same_length sampleHost high low close length1 a1
                         eq_refl eq_refl))).
Defined.

(** C3.  The colour sequence of a smoothed series has one colour per value;
    the colour at index 0 is yellow; at every index i > 0 it is green when
    s[i] > s[i-1] and red otherwise, and so it is red when s[i] and s[i-1]
    are equal. *)
Theorem colors_classification :
  forall (s : list float),
    length (colors s) = length s
    /\ (forall v, nth_error s 0 = Some v -> nth_error (colors s) 0 = Some yellow)
    /\ (forall i v prev,
          (0 < i)%nat ->
          nth_error s i = Some v ->
          nth_error s (i - 1) = Some prev ->
          nth_error (colors s) i = Some (if PrimFloat.ltb prev v then green else red)
          /\ (v = prev \/ PrimFloat.eqb v prev = true -> nth_error (colors s) i = Some red)).
Proof.
  intro s. split; [apply colors_length|]. split.
  - intros v Hv. now rewrite (colors_nth_error s 0 v Hv).
  - intros i v prev Hi Hv Hprev.
    destruct i as [|j]; [lia|].
    replace (S j - 1)%nat with j in Hprev by lia.
    rewrite (colors_nth_error s (S j) v Hv), (get_nth_error s j prev Hprev).
    split; [reflexivity|].
    intros [-> | Heq].
    + now rewrite ltb_irrefl.
    + now rewrite (eqb_not_ltb v prev Heq).
Qed.

Lemma colors_classification_witness :
  colors [1; 2; 2; 1]%float = [yellow; green; red; red]
  /\ nth_error (colors [1; 2; 2; 1]%float) 2 = Some red.
Proof.
  split; [reflexivity|].
  exact (proj2 (proj2 (proj2 (colors_classification [1; 2; 2; 1]%float))
                  2%nat 2%float 2%float (Nat.lt_0_succ 1) eq_refl eq_refl)
               (or_introl eq_refl)).
Defined.

(** C6, as stated, fails in binary64: for the constant series 100.5, 100.5
    and the window length 5, six passes of [ema] do not give back 100.5 at
    index 1. *)
Lemma ema6_constant_counterexample :
  ~ Forall (fun x => x = 100.5%float) (ema6 (repeat 100.5%float 2) 5%float).
Proof.
  intro H.
  assert (Hnth : nth 1 (ema6 (repeat 100.5%float 2) 5%float) 0%float = 100.5%float).
  { rewrite Forall_forall in H. apply H. apply nth_In. rewrite ema6_length. simpl. lia. }
  revert Hnth. apply eqb_false_neq; vm_compute; reflexivity.
Qed.

(** C6, amended.  For every constant series (every element equal to v) and
    every window length, six passes of [ema] give a series of the same
    length whose first element is v; and every element is v whenever one
    step of the recurrence at v, v * m + v * (1 - m) with m = 2 / (length +
    1), evaluates to v in binary64. *)
Theorem ema6_constant_series :
  forall (v len : float) (n : nat),
    length (ema6 (repeat v n) len) = n
    /\ ((0 < n)%nat -> nth_error (ema6 (repeat v n) len) 0 = Some v)
    /\ ((v * (2 / (len + 1)) + v * (1 - 2 / (len + 1)))%float = v ->
        ema6 (repeat v n) len = repeat v n).
Proof.
  intros v len n. split; [|split].
  - now rewrite ema6_length, repeat_length.
  - intro Hn. destruct n as [|n]; [lia|]. apply ema6_head.
  - apply ema6_constant.
Qed.

Lemma ema6_constant_series_witness :
  ema6 (repeat 60000%float 25) 8%float = repeat 60000%float 25.
Proof.
  exact (proj2 (proj2 (ema6_constant_series 60000%float 8%float 25)) eq_refl).
Defined.

(** ** Gateway *)

Lemma truthy_js_and a b : truthy (js_and a b) = truthy a && truthy b.
Proof. unfold js_and. destruct (truthy a) eqn:Ha; simpl; [reflexivity | exact Ha]. Qed.

Lemma keepRow_spec c :
  keepRow c = truthy (row_open c) && truthy (row_high c) && truthy (row_low c)
              && truthy (row_close c) && truthy (row_time c).
Proof. unfold keepRow. now rewrite !truthy_js_and. Qed.

Lemma isZero_falsy v : isZero v = true -> truthy v = false.
Proof.
  destruct v as [| |b|x|s|]; simpl; try discriminate.
  intros ->. reflexivity.
Qed.

Lemma keepRow_zero c : hasZeroField c -> keepRow c = false.
Proof.
  intro H. rewrite keepRow_spec.
  destruct H as [H|[H|[H|[H|H]]]]; apply isZero_falsy in H; rewrite H;
    repeat (rewrite ?andb_false_r, ?andb_false_l); reflexivity.
Qed.

Lemma filter_drop {A : Type} (f : A -> bool) before c after :
  f c = false -> filter f (before ++ c :: after) = filter f (before ++ after).
Proof. intro Hc. rewrite !filter_app. simpl. now rewrite Hc. Qed.

Lemma normalize_drop {host : Host} before c after :
  keepRow c = false -> normalize (before ++ c :: after) = normalize (before ++ after).
Proof. intro Hc. unfold normalize. now rewrite (filter_drop keepRow before c after Hc). Qed.

Lemma objects_app a b :
  objects (a ++ b)
  = match objects a, objects b with
    | Some rows_a, Some rows_b => Some (rows_a ++ rows_b)
    | _, _ => None
    end.
Proof.
  induction a as [|[|row] rest IH]; simpl.
  - now destruct (objects b).
  - reflexivity.
  - rewrite IH. destruct (objects rest), (objects b); reflexivity.
Qed.

Lemma objects_map rows : objects (map Object rows) = Some rows.
Proof. induction rows as [|row rest IH]; simpl; [reflexivity | now rewrite IH]. Qed.

(** C10.  A row of the answer in which one of open, high, low, close or
    time is the number zero fails the filter, present though its fields may
    be, and [fetchData] returns what it returns for the other elements
    alone: when these are all objects, the candles of the other rows. *)
Theorem fetchData_drops_zero_rows :
  forall (host : Host) (data : Payload) (before after : list Element) (c : Row),
    truthy (success data) = true ->
    result data = Rows (before ++ Object c :: after) ->
    hasZeroField c ->
    keepRow c = false
    /\ fetchData (Some data)
       = match objects (before ++ after) with
         | Some rows => Some (normalize rows)
         | None => None
         end
    /\ (forall rows_before rows_after : list Row,
          before = map Object rows_before ->
          after = map Object rows_after ->
          fetchData (Some data) = Some (normalize (rows_before ++ rows_after))).
Proof.
  intros host data before after c Hs Hr Hz.
  pose proof (keepRow_zero c Hz) as Hk. split; [exact Hk|].
  assert (Hfetch : fetchData (Some data)
                   = match objects (before ++ after) with
                     | Some rows => Some (normalize rows)
                     | None => None
                     end).
  { unfold fetchData. rewrite Hr, Hs. cbn [negb].
    replace (length (before ++ Object c :: after) =? 0)%nat with false
      by (symmetry; apply Nat.eqb_neq; rewrite length_app; simpl; lia).
    rewrite !objects_app. cbn [objects].
    destruct (objects before) as [rb|]; [|reflexivity].
    destruct (objects after) as [ra|]; [|reflexivity].
    now rewrite (normalize_drop rb c ra Hk). }
  split; [exact Hfetch|].
  intros rows_before rows_after -> ->.
  now rewrite Hfetch, <- map_app, objects_map.
Qed.

Lemma fetchData_drops_zero_rows_witness :
  allPresent zeroOpenRow
  /\ keepRow zeroOpenRow = false
  /\ @fetchData sampleHost
       (Some {| success := JBool true;
                result := Rows (map Object (sampleRows 2 1699905600 59980 10)
                                  ++ Object zeroOpenRow
                                  :: map Object (sampleRows 1 1699927200 60010 10)) |})
     = Some (@normalize sampleHost
               (sampleRows 2 1699905600 59980 10 ++ sampleRows 1 1699927200 60010 10)).
Proof.
  split; [repeat split|].
  pose proof (fetchData_drops_zero_rows sampleHost
                {| success := JBool true;
                   result := Rows (map Object (sampleRows 2 1699905600 59980 10)
                                     ++ Object zeroOpenRow
                                     :: map Object (sampleRows 1 1699927200 60010 10)) |}
                (map Object (sampleRows 2 1699905600 59980 10))
                (map Object (sampleRows 1 1699927200 60010 10))
                zeroOpenRow eq_refl eq_refl (or_introl eq_refl)) as H.
  split; [exact (proj1 H)|].
  exact (proj2 (proj2 H) _ _ eq_refl eq_refl).
Defined.

(** ** The bar timestamp *)

Lemma Qfloor_ms_to_bars (ts : Z) :
  Qfloor (inject_Z ts / 1000 / 7200) = (ts / 7200000)%Z.
Proof.
  assert (H : inject_Z ts / 1000 / 7200 == ts # 7200000).
  { unfold Qeq, Qdiv, Qmult, Qinv, inject_Z; simpl. ring. }
  rewrite (Qfloor_comp _ _ H). reflexivity.
Qed.

Lemma Bot_candleTs_is_timestamp last : Bot.candleTs last = timestamp last.
Proof.
  unfold Bot.candleTs, Math_floor, onNumber.
  destruct (timestamp last) as [ts|]; [now rewrite Qfloor_Z | reflexivity].
Qed.

Lemma Part001_candleTs_is_timestamp last : Part001.candleTs last = timestamp last.
Proof.
  unfold Part001.candleTs, Math_floor, onNumber.
  destruct (timestamp last) as [ts|]; [now rewrite Qfloor_Z | reflexivity].
Qed.

Lemma Part000_candleTs_is_boundary last :
  Part000.candleTs last = onNumber barBoundary (timestamp last).
Proof.
  unfold Part000.candleTs, Math_floor, barBoundary, onNumber.
  destruct (timestamp last) as [ts|]; [|reflexivity].
  rewrite Qfloor_ms_to_bars. f_equal. lia.
Qed.

Lemma barBoundary_fixpoint ts : barBoundary ts = ts <-> (ts mod 7200000 = 0)%Z.
Proof.
  unfold barBoundary.
  pose proof (Z.div_mod ts 7200000 ltac:(lia)) as H. lia.
Qed.

(** C2, as stated, fails in [bot.js]: for a latest candle stamped
    1700000000000 the loop compares and records 1700000000000, not the
    boundary 1699999200000. *)
Lemma Bot_candleTs_counterexample :
  timestamp offBoundaryCandle = Num 1700000000000
  /\ Bot.candleTs offBoundaryCandle = Num 1700000000000
  /\ barBoundary 1700000000000 = 1699999200000%Z
  /\ Bot.candleTs offBoundaryCandle <> Num (barBoundary 1700000000000).
Proof. repeat split; vm_compute; discriminate. Qed.

(** C2, amended.  In [part_000] the timestamp the loop compares and records
    is floor(last.timestamp / 7200000) * 7200000.  In [bot.js] and in
    [part_001] it is last.timestamp itself, which is that boundary exactly
    when last.timestamp is a multiple of 7200000.  (When last.timestamp is
    NaN, so is the timestamp compared, in the three files.) *)
Theorem candleTs_per_revision :
  forall last : Candle,
    Bot.candleTs last = timestamp last
    /\ Part001.candleTs last = timestamp last
    /\ match timestamp last with
       | Num ts =>
           Part000.candleTs last = Num (ts / 7200000 * 7200000)%Z
           /\ Bot.candleTs last = Num ts
           /\ Part001.candleTs last = Num ts
           /\ (Bot.candleTs last = Num (barBoundary ts) <-> (ts mod 7200000 = 0)%Z)
           /\ (Part001.candleTs last = Num (barBoundary ts) <-> (ts mod 7200000 = 0)%Z)
       | NaN =>
           Part000.candleTs last = NaN /\ Bot.candleTs last = NaN
           /\ Part001.candleTs last = NaN
       end.
Proof.
  intro last.
  pose proof (Bot_candleTs_is_timestamp last) as Hb.
  pose proof (Part001_candleTs_is_timestamp last) as H1.
  pose proof (Part000_candleTs_is_boundary last) as H0.
  split; [exact Hb|]. split; [exact H1|].
  destruct (timestamp last) as [ts|]; [|now repeat split].
  pose proof (barBoundary_fixpoint ts) as Hfix.
  rewrite Hb, H1. split; [exact H0|]. split; [reflexivity|]. split; [reflexivity|].
  split; split; intro H.
  - apply Hfix. now injection H.
  - f_equal. symmetry. now apply Hfix.
  - apply Hfix. now injection H.
  - f_equal. symmetry. now apply Hfix.
Qed.

(** ** The event log *)

Lemma pushLog_below l e : (length l < 50)%nat -> pushLog l e = l ++ [e].
Proof.
  intro H. unfold pushLog.
  replace (50 <? length (l ++ [e]))%nat with false; [reflexivity|].
  symmetry. apply Nat.ltb_ge. rewrite length_app. simpl. lia.
Qed.

Lemma pushLog_full l e : length l = 50%nat -> pushLog l e = tl l ++ [e].
Proof.
  intro H. unfold pushLog, slice_last.
  replace (50 <? length (l ++ [e]))%nat with true
    by (symmetry; apply Nat.ltb_lt; rewrite length_app; simpl; lia).
  replace (length (l ++ [e]) - 50)%nat with 1%nat by (rewrite length_app; simpl; lia).
  destruct l as [|x l]; [discriminate|]. reflexivity.
Qed.

Lemma pushLog_length l e : (length l <= 50)%nat -> (length (pushLog l e) <= 50)%nat.
Proof.
  intro H. destruct (Nat.eq_dec (length l) 50) as [Heq|Hne].
  - rewrite (pushLog_full l e Heq), length_app. destruct l; simpl in *; lia.
  - rewrite (pushLog_below l e) by lia. rewrite length_app. simpl. lia.
Qed.

(** What is left after a push is a tail of the old log with the new entry
    at its end: the entries that go are the oldest, and the order stays. *)
Lemma pushLog_suffix l e : exists evicted, l ++ [e] = evicted ++ pushLog l e.
Proof.
  unfold pushLog, slice_last.
  destruct (50 <? length (l ++ [e]))%nat.
  - exists (firstn (length (l ++ [e]) - 50) (l ++ [e])). symmetry. apply firstn_skipn.
  - now exists [].
Qed.

(** ** One turn of the loop *)

Lemma sameCandle_refl ts : sameCandle (Num ts) (Some (Num ts)) = true.
Proof. apply Z.eqb_refl. Qed.

Lemma sameCandle_true ts last : sameCandle ts last = true -> last = Some ts.
Proof.
  destruct last as [[t|]|], ts as [z|]; simpl; try discriminate.
  intro H. apply Z.eqb_eq in H. now subst.
Qed.

(** NaN is never the bar already seen. *)
Lemma sameCandle_NaN last : sameCandle NaN last = false.
Proof. now destruct last as [[t|]|]. Qed.

(** Case analysis along the tests of a turn. *)
Ltac split_turn :=
  repeat match goal with
         | |- context [match fetchData ?r with _ => _ end] =>
             destruct (fetchData r) as [?df|] eqn:?Hfetch
         | |- context [if (length ?df <? 20)%nat then _ else _] =>
             destruct (length df <? 20)%nat eqn:?Hshort
         | |- context [match at_last ?df with _ => _ end] =>
             destruct (at_last df) as [?last|] eqn:?Hlast
         | |- context [if sameCandle ?ts ?l then _ else _] =>
             destruct (sameCandle ts l) eqn:?Hsame
         | |- context [if negb ?u && negb ?d then _ else _] =>
             destruct (negb u && negb d) eqn:?Hnone
         | |- context [if trendDiffers ?t ?l then _ else _] =>
             destruct (trendDiffers t l) eqn:?Hdiff
         | |- context [let (_, _) := Part000.sendTelegram ?e ?s ?n ?o ?m in _] =>
             destruct (Part000.sendTelegram e s n o m) as [?st ?posted] eqn:?Hsend
         end.

Section Turns.

Context {host : Host}.
Variable env : Env.

(** *** Insufficient data *)

Lemma Bot_cycle_no_data st poll :
  (fetchData (response poll) = None
   \/ exists df, fetchData (response poll) = Some df /\ (length df < 20)%nat) ->
  Bot.cycle env st poll = (st, [Sleep Bot.POLL_INTERVAL]).
Proof.
  intros [H | [df [H Hlen]]]; unfold Bot.cycle; rewrite H; [reflexivity|].
  apply Nat.ltb_lt in Hlen. now rewrite Hlen.
Qed.

Lemma Part000_cycle_no_data st poll :
  (fetchData (response poll) = None
   \/ exists df, fetchData (response poll) = Some df /\ (length df < 20)%nat) ->
  Part000.cycle env st poll = (st, [Sleep Part000.POLL_INTERVAL]).
Proof.
  intros [H | [df [H Hlen]]]; unfold Part000.cycle; rewrite H; [reflexivity|].
  apply Nat.ltb_lt in Hlen. now rewrite Hlen.
Qed.

Lemma Part001_cycle_no_data st poll :
  (fetchData (response poll) = None
   \/ exists df, fetchData (response poll) = Some df /\ (length df < 20)%nat) ->
  Part001.cycle env st poll = (st, [Sleep Part001.POLL_INTERVAL]).
Proof.
  intros [H | [df [H Hlen]]]; unfold Part001.cycle; rewrite H; [reflexivity|].
  apply Nat.ltb_lt in Hlen. now rewrite Hlen.
Qed.

(** *** The bar already seen *)

Lemma Bot_cycle_same_candle st poll ts :
  Bot.pollCandleTs poll = Some (Num ts) ->
  Bot.lastCandleTs st = Some (Num ts) ->
  Bot.cycle env st poll = (st, [Sleep Bot.POLL_INTERVAL]).
Proof.
  unfold Bot.pollCandleTs, Bot.cycle. intros Hts Hst. cbv zeta.
  destruct (fetchData (response poll)) as [df|]; [|discriminate].
  destruct (length df <? 20)%nat; [discriminate|].
  destruct (at_last df) as [last|]; [|discriminate].
  simpl in Hts. injection Hts as Hts. rewrite Hts, Hst, sameCandle_refl. reflexivity.
Qed.

Lemma Bot_cycle_records st poll ts :
  Bot.pollCandleTs poll = Some ts ->
  Bot.lastCandleTs (fst (Bot.cycle env st poll)) = Some ts.
Proof.
  unfold Bot.pollCandleTs, Bot.cycle. intros Hts. cbv zeta.
  destruct (fetchData (response poll)) as [df|]; [|discriminate].
  destruct (length df <? 20)%nat; [discriminate|].
  destruct (at_last df) as [last|]; [|discriminate].
  simpl in Hts. injection Hts as Hts. rewrite Hts.
  split_turn; simpl; try reflexivity.
  now apply sameCandle_true in Hsame.
Qed.

Lemma Part000_sendTelegram_frame e st n ok msg :
  let st' := fst (Part000.sendTelegram e st n ok msg) in
  Part000.lastTrend st' = Part000.lastTrend st
  /\ Part000.lastCandleTs st' = Part000.lastCandleTs st
  /\ Part000.logs st' = Part000.logs st
  /\ Part000.leaderPID st' = Part000.leaderPID st
  /\ Part000.isLeader st' = Part000.isLeader st.
Proof.
  unfold Part000.sendTelegram.
  destruct (_ <? _)%Z; [simpl; tauto|].
  destruct (_ || _); [simpl; tauto|].
  destruct ok; simpl; tauto.
Qed.

Lemma Part000_cycle_same_candle st poll ts :
  Part000.pollCandleTs poll = Some (Num ts) ->
  Part000.lastCandleTs st = Some (Num ts) ->
  Part000.cycle env st poll = (st, [Sleep Part000.POLL_INTERVAL]).
Proof.
  unfold Part000.pollCandleTs, Part000.cycle. intros Hts Hst. cbv zeta.
  destruct (fetchData (response poll)) as [df|]; [|discriminate].
  destruct (length df <? 20)%nat; [discriminate|].
  destruct (at_last df) as [last|]; [|discriminate].
  simpl in Hts. injection Hts as Hts. rewrite Hts, Hst, sameCandle_refl. reflexivity.
Qed.

Lemma Part000_cycle_records st poll ts :
  Part000.pollCandleTs poll = Some ts ->
  Part000.lastCandleTs (fst (Part000.cycle env st poll)) = Some ts.
Proof.
  unfold Part000.pollCandleTs, Part000.cycle. intros Hts. cbv zeta.
  destruct (fetchData (response poll)) as [df|]; [|discriminate].
  destruct (length df <? 20)%nat; [discriminate|].
  destruct (at_last df) as [last|]; [|discriminate].
  simpl in Hts. injection Hts as Hts. rewrite Hts.
  split_turn; simpl; try reflexivity.
  - now apply sameCandle_true in Hsame.
  - match type of Hsend with
    | Part000.sendTelegram ?e ?s ?n ?o ?m = _ =>
        pose proof (Part000_sendTelegram_frame e s n o m) as Hframe
    end.
    rewrite Hsend in Hframe. simpl in Hframe. now destruct Hframe as (_ & -> & _).
Qed.

Lemma Part001_cycle_same_candle st poll ts :
  Part001.pollCandleTs poll = Some (Num ts) ->
  Part001.lastCandleTs st = Some (Num ts) ->
  Part001.cycle env st poll = (st, [Sleep Part001.POLL_INTERVAL]).
Proof.
  unfold Part001.pollCandleTs, Part001.cycle. intros Hts Hst. cbv zeta.
  destruct (fetchData (response poll)) as [df|]; [|discriminate].
  destruct (length df <? 20)%nat; [discriminate|].
  destruct (at_last df) as [last|]; [|discriminate].
  simpl in Hts. injection Hts as Hts. rewrite Hts, Hst, sameCandle_refl. reflexivity.
Qed.

Lemma Part001_cycle_records st poll ts :
  Part001.pollCandleTs poll = Some ts ->
  Part001.lastCandleTs (fst (Part001.cycle env st poll)) = Some ts.
Proof.
  unfold Part001.pollCandleTs, Part001.cycle. intros Hts. cbv zeta.
  destruct (fetchData (response poll)) as [df|]; [|discriminate].
  destruct (length df <? 20)%nat; [discriminate|].
  destruct (at_last df) as [last|]; [|discriminate].
  simpl in Hts. injection Hts as Hts. rewrite Hts.
  split_turn; simpl; try reflexivity.
  now apply sameCandle_true in Hsame.
Qed.

End Turns.

(** *** The log through a turn *)

Section LogThroughTurns.

Context {host : Host}.
Variable env : Env.

Lemma Bot_cycle_logs st poll :
  Bot.logs (fst (Bot.cycle env st poll)) = Bot.logs st
  \/ exists e, Bot.logs (fst (Bot.cycle env st poll)) = pushLog (Bot.logs st) e.
Proof.
  unfold Bot.cycle. cbv zeta. split_turn; simpl; try (now left).
  right. eexists. reflexivity.
Qed.

Lemma Part000_cycle_logs st poll :
  Part000.logs (fst (Part000.cycle env st poll)) = Part000.logs st
  \/ exists e, Part000.logs (fst (Part000.cycle env st poll)) = pushLog (Part000.logs st) e.
Proof.
  unfold Part000.cycle. cbv zeta. split_turn; simpl; try (now left).
  right.
  match type of Hsend with
  | Part000.sendTelegram ?e ?s ?n ?o ?m = _ =>
      pose proof (Part000_sendTelegram_frame e s n o m) as Hframe
  end.
  rewrite Hsend in Hframe. simpl in Hframe. destruct Hframe as (_ & _ & -> & _).
  eexists. reflexivity.
Qed.

Lemma Part001_cycle_logs st poll :
  Part001.logs (fst (Part001.cycle env st poll)) = Part001.logs st
  \/ exists e, Part001.logs (fst (Part001.cycle env st poll)) = pushLog (Part001.logs st) e.
Proof.
  unfold Part001.cycle. cbv zeta. split_turn; simpl; try (now left).
  right. eexists. reflexivity.
Qed.

Lemma Bot_reachable_bounded st :
  Bot_reachable env st -> (length (Bot.logs st) <= 50)%nat.
Proof.
  induction 1 as [|st poll Hreach IH]; [simpl; lia|].
  destruct (Bot_cycle_logs st poll) as [-> | [e ->]]; [exact IH|].
  now apply pushLog_length.
Qed.

Lemma Part000_reachable_bounded pid st :
  Part000_reachable env pid st -> (length (Part000.logs st) <= 50)%nat.
Proof.
  induction 1 as [st runs Hstart|st poll Hreach IH].
  - injection Hstart as <- _. simpl. lia.
  - destruct (Part000_cycle_logs st poll) as [-> | [e ->]]; [exact IH|].
    now apply pushLog_length.
Qed.

Lemma Part001_reachable_bounded st :
  Part001_reachable env st -> (length (Part001.logs st) <= 50)%nat.
Proof.
  induction 1 as [|st poll Hreach IH]; [simpl; lia|].
  destruct (Part001_cycle_logs st poll) as [-> | [e ->]]; [exact IH|].
  now apply pushLog_length.
Qed.

End LogThroughTurns.

(** ** Claims on the trend monitor *)

Section LatestTimestamp.

Context {host : Host}.

Lemma Bot_pollCandleTs_latest poll t :
  latestTimestamp poll = Some t -> Bot.pollCandleTs poll = Some t.
Proof.
  unfold latestTimestamp, Bot.pollCandleTs.
  destruct (fetchData (response poll)) as [df|]; [|discriminate].
  destruct (length df <? 20)%nat; [discriminate|].
  destruct (at_last df) as [last|]; [|discriminate].
  simpl. intro H. injection H as <-. now rewrite Bot_candleTs_is_timestamp.
Qed.

Lemma Part001_pollCandleTs_latest poll t :
  latestTimestamp poll = Some t -> Part001.pollCandleTs poll = Some t.
Proof.
  unfold latestTimestamp, Part001.pollCandleTs.
  destruct (fetchData (response poll)) as [df|]; [|discriminate].
  destruct (length df <? 20)%nat; [discriminate|].
  destruct (at_last df) as [last|]; [|discriminate].
  simpl. intro H. injection H as <-. now rewrite Part001_candleTs_is_timestamp.
Qed.

Lemma Part000_pollCandleTs_latest poll t :
  latestTimestamp poll = Some t ->
  Part000.pollCandleTs poll = Some (onNumber barBoundary t).
Proof.
  unfold latestTimestamp, Part000.pollCandleTs.
  destruct (fetchData (response poll)) as [df|]; [|discriminate].
  destruct (length df <? 20)%nat; [discriminate|].
  destruct (at_last df) as [last|]; [|discriminate].
  simpl. intro H. injection H as <-. now rewrite Part000_candleTs_is_boundary.
Qed.

End LatestTimestamp.

(** C1, as stated, fails in [bot.js] and in [part_001]: two consecutive
    polls whose latest candles, stamped 1700000000 s and 1700000060 s, lie
    in the same 2 hour bar (boundary 1699999200000) are both evaluated, and
    the later turn appends a second entry and calls the notifier again. *)
Lemma Bot_second_event_within_bar :
  @latestTimestamp sampleHost midBarRisingPoll = Some (Num 1700000000000)
  /\ @latestTimestamp sampleHost midBarFallingPoll = Some (Num 1700000060000)
  /\ barBoundary 1700000000000 = barBoundary 1700000060000
  /\ map trend
       (Bot.logs (fst (@Bot.cycle sampleHost sampleEnv
                         (fst (@Bot.cycle sampleHost sampleEnv Bot.initial midBarRisingPoll))
                         midBarFallingPoll)))
     = [UPTREND; DOWNTREND]
  /\ length (filter isNotify
               (snd (@Bot.cycle sampleHost sampleEnv
                       (fst (@Bot.cycle sampleHost sampleEnv Bot.initial midBarRisingPoll))
                       midBarFallingPoll))) = 1%nat
  /\ length (filter isNotify
               (snd (@Part001.cycle sampleHost sampleEnv
                       (fst (@Part001.cycle sampleHost sampleEnv Part001.initial
                               midBarRisingPoll))
                       midBarFallingPoll))) = 1%nat.
Proof. repeat split; vm_compute; reflexivity. Qed.

(** C1, amended.  Take two consecutive turns of the loop whose latest
    candles have timestamps that are numbers.  In [part_000], when the two
    timestamps have the same 2 hour boundary, the later turn leaves the
    state as the earlier one left it, so the log gets no second entry, and
    all it does is sleep: the notifier is not called, nothing is posted,
    nothing is broadcast.  In [bot.js] and in [part_001] this is so when the
    two timestamps themselves are equal. *)
Theorem no_second_event_for_same_bar :
  forall (host : Host) (env : Env) (p1 p2 : Poll) (t1 t2 : Z),
    latestTimestamp p1 = Some (Num t1) ->
    latestTimestamp p2 = Some (Num t2) ->
    (barBoundary t1 = barBoundary t2 ->
     forall st,
       Part000.cycle env (fst (Part000.cycle env st p1)) p2
       = (fst (Part000.cycle env st p1), [Sleep Part000.POLL_INTERVAL]))
    /\ (t1 = t2 ->
        forall st,
          Bot.cycle env (fst (Bot.cycle env st p1)) p2
          = (fst (Bot.cycle env st p1), [Sleep Bot.POLL_INTERVAL]))
    /\ (t1 = t2 ->
        forall st,
          Part001.cycle env (fst (Part001.cycle env st p1)) p2
          = (fst (Part001.cycle env st p1), [Sleep Part001.POLL_INTERVAL])).
Proof.
  intros host env p1 p2 t1 t2 H1 H2. split; [|split].
  - intros Hb st.
    pose proof (Part000_pollCandleTs_latest p1 _ H1) as P1.
    pose proof (Part000_pollCandleTs_latest p2 _ H2) as P2.
    simpl in P1, P2. rewrite <- Hb in P2.
    apply (Part000_cycle_same_candle env _ p2 _ P2).
    now apply Part000_cycle_records.
  - intros <- st.
    apply (Bot_cycle_same_candle env _ p2 t1 (Bot_pollCandleTs_latest p2 _ H2)).
    apply Bot_cycle_records. now apply Bot_pollCandleTs_latest.
  - intros <- st.
    apply (Part001_cycle_same_candle env _ p2 t1 (Part001_pollCandleTs_latest p2 _ H2)).
    apply Part001_cycle_records. now apply Part001_pollCandleTs_latest.
Qed.

Lemma no_second_event_for_same_bar_witness :
  @Part000.cycle sampleHost sampleEnv
     (fst (@Part000.cycle sampleHost sampleEnv (Part000_initial 1) midBarRisingPoll))
     midBarFallingPoll
  = (fst (@Part000.cycle sampleHost sampleEnv (Part000_initial 1) midBarRisingPoll),
     [Sleep Part000.POLL_INTERVAL]).
Proof.
  exact (proj1 (no_second_event_for_same_bar sampleHost sampleEnv midBarRisingPoll
                  midBarFallingPoll 1700000000000%Z 1700000060000%Z eq_refl eq_refl)
           eq_refl (Part000_initial 1)).
Defined.

(** C8.  A turn whose fetch returns the failure value or fewer than 20
    candles leaves the state as it was (timestamp of the evaluated bar,
    trend and log alike) and only sleeps: no entry is appended and the
    notifier is not called.  This holds in each of the three files. *)
Theorem no_data_no_change :
  forall (host : Host) (env : Env) (poll : Poll),
    (fetchData (response poll) = None
     \/ exists df, fetchData (response poll) = Some df /\ (length df < 20)%nat) ->
    (forall st, Bot.cycle env st poll = (st, [Sleep Bot.POLL_INTERVAL]))
    /\ (forall st, Part000.cycle env st poll = (st, [Sleep Part000.POLL_INTERVAL]))
    /\ (forall st, Part001.cycle env st poll = (st, [Sleep Part001.POLL_INTERVAL])).
Proof.
  intros host env poll H. repeat split; intro st.
  - now apply Bot_cycle_no_data.
  - now apply Part000_cycle_no_data.
  - now apply Part001_cycle_no_data.
Qed.

Lemma no_data_no_change_witness :
  (forall st, @Bot.cycle sampleHost sampleEnv st shortPoll = (st, [Sleep Bot.POLL_INTERVAL]))
  /\ (forall st, @Bot.cycle sampleHost sampleEnv st failedPoll = (st, [Sleep Bot.POLL_INTERVAL])).
Proof.
  split.
  - apply (no_data_no_change sampleHost sampleEnv shortPoll).
    right. exists (@normalize sampleHost (sampleRows 5 1699920000 60000 10)).
    split; [reflexivity | vm_compute; lia].
  - apply (no_data_no_change sampleHost sampleEnv failedPoll).
    left. reflexivity.
Defined.

(** C4.  In every state a run reaches the event log holds at most 50
    entries; a turn leaves the log alone or pushes one entry; a push onto
    fewer than 50 entries appends, and a push onto 50 entries drops the
    oldest entry and keeps the others in their order, the new entry last.
    This holds in each of the three files. *)
Theorem event_log_bounded_fifo :
  forall (host : Host) (env : Env) (pid : Z),
    (forall st, Bot_reachable env st -> (length (Bot.logs st) <= 50)%nat)
    /\ (forall st, Part000_reachable env pid st -> (length (Part000.logs st) <= 50)%nat)
    /\ (forall st, Part001_reachable env st -> (length (Part001.logs st) <= 50)%nat)
    /\ (forall st poll,
          Bot.logs (fst (Bot.cycle env st poll)) = Bot.logs st
          \/ exists e, Bot.logs (fst (Bot.cycle env st poll)) = pushLog (Bot.logs st) e)
    /\ (forall st poll,
          Part000.logs (fst (Part000.cycle env st poll)) = Part000.logs st
          \/ exists e, Part000.logs (fst (Part000.cycle env st poll))
                       = pushLog (Part000.logs st) e)
    /\ (forall st poll,
          Part001.logs (fst (Part001.cycle env st poll)) = Part001.logs st
          \/ exists e, Part001.logs (fst (Part001.cycle env st poll))
                       = pushLog (Part001.logs st) e)
    /\ (forall l e, (length l < 50)%nat -> pushLog l e = l ++ [e])
    /\ (forall l e, length l = 50%nat -> pushLog l e = tl l ++ [e]).
Proof.
  intros host env pid. repeat split.
  - apply Bot_reachable_bounded.
  - apply Part000_reachable_bounded.
  - apply Part001_reachable_bounded.
  - apply Bot_cycle_logs.
  - apply Part000_cycle_logs.
  - apply Part001_cycle_logs.
  - apply pushLog_below.
  - apply pushLog_full.
Qed.

Lemma event_log_bounded_fifo_witness :
  (length (Bot.logs (fst (@Bot.cycle sampleHost sampleEnv Bot.initial risingPoll))) <= 50)%nat
  /\ pushLog (repeat sampleEntry 50) newestEntry = repeat sampleEntry 49 ++ [newestEntry].
Proof.
  pose proof (event_log_bounded_fifo sampleHost sampleEnv 1%Z) as H.
  split.
  - apply (proj1 H). apply Bot_reach_cycle. apply Bot_reach_initial.
  - apply (proj2 (proj2 (proj2 (proj2 (proj2 (proj2 (proj2 H))))))). reflexivity.
Defined.

(** ** Claims on the notifier and on startup *)

Lemma Part000_sendTelegram_cooldown env st n ok msg :
  (n - Part000.lastAlertTs st < 600000)%Z ->
  Part000.sendTelegram env st n ok msg = (st, []).
Proof.
  intro H. unfold Part000.sendTelegram.
  replace (n - Part000.lastAlertTs st <? 10 * 60 * 1000)%Z with true; [reflexivity|].
  symmetry. apply Z.ltb_lt. lia.
Qed.

Lemma Part000_sendTelegram_delivered env st n msg st' :
  Part000.sendTelegram env st n true msg = (st', [Post env msg]) ->
  Part000.lastAlertTs st' = n.
Proof.
  unfold Part000.sendTelegram.
  destruct (_ <? _)%Z; [discriminate|].
  destruct (_ || _); [discriminate|].
  intro H. injection H as <-. reflexivity.
Qed.

Lemma Part000_sendTelegram_no_credentials env st n ok msg :
  missing (BOT_TOKEN env) || missing (CHAT_ID env) = true ->
  Part000.sendTelegram env st n ok msg = (st, []).
Proof.
  intro H. unfold Part000.sendTelegram. rewrite H.
  now destruct (_ <? _)%Z.
Qed.

Lemma Part001_sendTelegram_no_credentials env msg :
  missing (BOT_TOKEN env) || missing (CHAT_ID env) = true ->
  Part001.sendTelegram env msg = [].
Proof. intro H. unfold Part001.sendTelegram. now rewrite H. Qed.

(** C5, as stated, fails in [bot.js]: in a run whose two turns find a new
    trend each, the notifier is called 15 seconds after a delivery and
    posts again.  ([part_000] posts once on the same polls.) *)
Lemma Bot_posts_within_cooldown :
  (now fallingPoll - now risingPoll < 600000)%Z
  /\ length (filter isPost
               (snd (@Bot.strategyLoop sampleHost sampleEnv Bot.initial
                       [risingPoll; fallingPoll]))) = 2%nat
  /\ length (filter isPost
               (snd (@Part000.strategyLoop sampleHost sampleEnv (Part000_initial 1)
                       [risingPoll; fallingPoll]))) = 1%nat.
Proof. split; [reflexivity|]. split; vm_compute; reflexivity. Qed.

(** C5, amended.  In [part_000] a call of [sendTelegram] less than 10
    minutes after the recorded delivery time posts nothing and leaves the
    state, the recorded delivery time included, as it was; this is so in
    particular for a call less than 10 minutes after a call that delivered.
    [bot.js] and [part_001] record no delivery time and have no cooldown:
    there a call posts whenever it is made ([part_001]: with both
    credentials set). *)
Theorem sendTelegram_cooldown :
  forall (env : Env) (msg : string),
    (forall st n ok,
        (n - Part000.lastAlertTs st < 600000)%Z ->
        Part000.sendTelegram env st n ok msg = (st, []))
    /\ (forall st st1 n1 n2 msg1 ok,
        Part000.sendTelegram env st n1 true msg1 = (st1, [Post env msg1]) ->
        (n2 - n1 < 600000)%Z ->
        Part000.sendTelegram env st1 n2 ok msg = (st1, []))
    /\ Bot.sendTelegram env msg = [Post env msg]
    /\ (missing (BOT_TOKEN env) || missing (CHAT_ID env) = false ->
        Part001.sendTelegram env msg = [Post env (stripTags msg)]).
Proof.
  intros env msg. repeat split.
  - intros st n ok H. now apply Part000_sendTelegram_cooldown.
  - intros st st1 n1 n2 msg1 ok Hfirst Hgap.
    apply Part000_sendTelegram_cooldown.
    now rewrite (Part000_sendTelegram_delivered env st n1 msg1 st1 Hfirst).
  - intro H. unfold Part001.sendTelegram. now rewrite H.
Qed.

Lemma sendTelegram_cooldown_witness :
  Part000.sendTelegram sampleEnv
    (Part000.setLastAlertTs (Part000_initial 1) 1700000000000) 1700000015000 true "again"
  = (Part000.setLastAlertTs (Part000_initial 1) 1700000000000, []).
Proof.
  refine (proj1 (proj2 (sendTelegram_cooldown sampleEnv "again"))
            (Part000_initial 1) _ 1700000000000%Z 1700000015000%Z "first"%string true _ _).
  - reflexivity.
  - reflexivity.
Defined.

(** C9, as stated, fails in [bot.js]: with no credentials in the environment
    the process exits with status 1 and never listens. *)
Lemma Bot_startup_exits_without_credentials :
  Bot.startup noCredentials = Exit 1
  /\ ~ (exists st runs, Bot.startup noCredentials = Listening st runs).
Proof.
  split; [reflexivity|]. intros [st [runs H]]. discriminate H.
Qed.

(** C9, amended.  When the bot token or the chat id is absent, [part_000]
    and [part_001] start as usual and run the loop, every call of their
    [sendTelegram] posts nothing and fails nothing, and so no turn of their
    loops posts; [bot.js] exits at startup with status 1. *)
Theorem missing_credentials :
  forall (host : Host) (env : Env),
    missing (BOT_TOKEN env) || missing (CHAT_ID env) = true ->
    (Part001.startup env = Listening Part001.initial true
     /\ (forall msg, Part001.sendTelegram env msg = [])
     /\ (forall st poll, filter isPost (snd (Part001.cycle env st poll)) = []))
    /\ (forall pid, Part000.startup pid None env = Listening (Part000_initial pid) true)
    /\ (forall st n ok msg, Part000.sendTelegram env st n ok msg = (st, []))
    /\ (forall st poll, filter isPost (snd (Part000.cycle env st poll)) = [])
    /\ Bot.startup env = Exit 1.
Proof.
  intros host env H. repeat split.
  - intro msg. now apply Part001_sendTelegram_no_credentials.
  - intros st poll. unfold Part001.cycle. cbv zeta.
    split_turn; simpl; try reflexivity.
    now rewrite Part001_sendTelegram_no_credentials.
  - intros st n ok msg. now apply Part000_sendTelegram_no_credentials.
  - intros st poll. unfold Part000.cycle. cbv zeta.
    split_turn; simpl; try reflexivity.
    rewrite Part000_sendTelegram_no_credentials in Hsend by exact H.
    injection Hsend as <- <-. reflexivity.
  - unfold Bot.startup. now rewrite H.
Qed.

Lemma missing_credentials_witness :
  Part001.startup noCredentials = Listening Part001.initial true
  /\ @Part001.cycle sampleHost noCredentials Part001.initial risingPoll
     = ({| Part001.lastTrend := Some UPTREND;
           Part001.lastCandleTs := Some (Num 1700092800000);
           Part001.logs := [{| trend := UPTREND; time := "1700092800000" |}] |},
        [Notify (@Part001.message sampleHost true UPTREND
                   {| timestamp := Num 1700092800000; open := 60240; high := 60240;
                      low := 60240; close := 60240 |} "1700092800000");
         Emit [{| trend := UPTREND; time := "1700092800000" |}];
         Sleep Part001.POLL_INTERVAL])
  /\ Bot.startup noCredentials = Exit 1.
Proof.
  pose proof (missing_credentials sampleHost noCredentials eq_refl) as H.
  split; [exact (proj1 (proj1 H))|]. split; [|exact (proj2 (proj2 (proj2 (proj2 H))))].
  vm_compute. reflexivity.
Defined.

(** * Further properties of the code *)

(** ** Gateway: order and provenance of the candles *)

Lemma insertCandle_perm a l : Permutation (insertCandle a l) (a :: l).
Proof.
  induction l as [|b rest IH]; simpl.
  - apply Permutation_refl.
  - destruct (SortCompare (compareFn b a) <? 0)%Z.
    + eapply perm_trans; [apply perm_skip, IH | apply perm_swap].
    + apply Permutation_refl.
Qed.

Lemma insertion_perm cs : Permutation (fold_right insertCandle [] cs) cs.
Proof.
  induction cs as [|a rest IH]; simpl.
  - apply perm_nil.
  - eapply perm_trans; [apply insertCandle_perm | now apply perm_skip].
Qed.

Lemma sortByTimestamp_perm {host : Host} cs : Permutation (sortByTimestamp cs) cs.
Proof.
  unfold sortByTimestamp. destruct (consistentOn cs).
  - apply insertion_perm.
  - apply Array_sort_inconsistent_perm.
Qed.

Lemma stamped_consistent cs : stamped cs -> consistentOn cs = true.
Proof.
  intro H. unfold consistentOn. apply orb_true_iff. left.
  apply forallb_forall. intros c Hc. specialize (H c Hc).
  now destruct (timestamp c).
Qed.

Lemma stamped_perm cs ds : Permutation cs ds -> stamped cs -> stamped ds.
Proof.
  intros Hp H c Hc. apply H. now apply (Permutation_in _ (Permutation_sym Hp)).
Qed.

Lemma insertCandle_sorted a l :
  stamped (a :: l) ->
  StronglySorted earlier l -> StronglySorted earlier (insertCandle a l).
Proof.
  intros Hst Hs. induction Hs as [|b rest Hsorted IH Hall]; simpl.
  - constructor; constructor.
  - assert (Ha : timestamp a <> NaN) by (apply Hst; now left).
    assert (Hb : timestamp b <> NaN) by (apply Hst; right; now left).
    unfold compareFn, minus.
    destruct (timestamp a) as [x|] eqn:Ea; [|contradiction].
    destruct (timestamp b) as [y|] eqn:Eb; [|contradiction].
    cbn [SortCompare].
    destruct (y - x <? 0)%Z eqn:Hcmp.
    + apply Z.ltb_lt in Hcmp. constructor.
      * apply IH. intros c [<-|Hc]; [congruence|]. apply Hst. right. now right.
      * apply (Permutation_Forall (Permutation_sym (insertCandle_perm a rest))).
        constructor; [unfold earlier; rewrite Ea, Eb; lia | exact Hall].
    + apply Z.ltb_ge in Hcmp.
      constructor; [now constructor|].
      constructor; [unfold earlier; rewrite Ea, Eb; lia|].
      eapply Forall_impl; [|exact Hall]. unfold earlier. rewrite Ea, Eb.
      intros c Hc. destruct (timestamp c); [lia | contradiction].
Qed.

Lemma insertion_sorted cs :
  stamped cs -> StronglySorted earlier (fold_right insertCandle [] cs).
Proof.
  induction cs as [|a rest IH]; intro Hst; simpl.
  - constructor.
  - apply insertCandle_sorted.
    + apply (stamped_perm (a :: rest)); [|exact Hst].
      apply perm_skip, Permutation_sym, insertion_perm.
    + apply IH. intros c Hc. apply Hst. now right.
Qed.

Lemma sortByTimestamp_sorted {host : Host} cs :
  stamped cs -> StronglySorted earlier (sortByTimestamp cs).
Proof.
  intro Hst. unfold sortByTimestamp. rewrite (stamped_consistent cs Hst).
  now apply insertion_sorted.
Qed.

Lemma insertCandle_filter_same (t : Z) a l :
  filter (fun c => strictEq (timestamp c) (Num t)) (insertCandle a l)
  = filter (fun c => strictEq (timestamp c) (Num t)) (a :: l).
Proof.
  induction l as [|b rest IH]; [reflexivity|].
  simpl insertCandle.
  destruct (SortCompare (compareFn b a) <? 0)%Z eqn:Hcmp; [|reflexivity].
  apply Z.ltb_lt in Hcmp. simpl in *. rewrite IH.
  destruct (strictEq (timestamp a) (Num t)) eqn:Ha; [|reflexivity].
  replace (strictEq (timestamp b) (Num t)) with false; [reflexivity|].
  unfold compareFn, minus in Hcmp.
  destruct (timestamp a) as [x|]; [|discriminate].
  destruct (timestamp b) as [y|]; [|reflexivity].
  simpl in *. apply Z.eqb_eq in Ha. symmetry. apply Z.eqb_neq. lia.
Qed.

Lemma insertion_stable (t : Z) cs :
  filter (fun c => strictEq (timestamp c) (Num t)) (fold_right insertCandle [] cs)
  = filter (fun c => strictEq (timestamp c) (Num t)) cs.
Proof.
  induction cs as [|a rest IH]; [reflexivity|].
  simpl fold_right. rewrite insertCandle_filter_same. simpl. now rewrite IH.
Qed.

Lemma sortByTimestamp_stable {host : Host} (t : Z) cs :
  stamped cs ->
  filter (fun c => strictEq (timestamp c) (Num t)) (sortByTimestamp cs)
  = filter (fun c => strictEq (timestamp c) (Num t)) cs.
Proof.
  intro Hst. unfold sortByTimestamp. rewrite (stamped_consistent cs Hst).
  apply insertion_stable.
Qed.

Lemma last_default {A : Type} (l : list A) :
  forall a d d', last (a :: l) d = last (a :: l) d'.
Proof.
  induction l as [|b rest IH]; intros a d d'; [reflexivity|].
  change (last (b :: rest) d = last (b :: rest) d'). apply IH.
Qed.

Lemma at_last_app {A : Type} (l : list A) x : at_last (l ++ [x]) = Some x.
Proof.
  destruct l as [|y rest]; [reflexivity|].
  simpl. now rewrite last_last.
Qed.

Lemma at_last_snoc {A : Type} (l : list A) x :
  at_last l = Some x -> exists front, l = front ++ [x].
Proof.
  destruct l as [|y rest]; [discriminate|].
  destruct (exists_last (l := y :: rest)) as [front [a E]]; [discriminate|].
  intro H. rewrite E, at_last_app in H. injection H as <-. now exists front.
Qed.

Lemma at_last_In {A : Type} (l : list A) x : at_last l = Some x -> In x l.
Proof.
  intro H. destruct (at_last_snoc l x H) as [front ->].
  apply in_or_app. right. now left.
Qed.

Lemma earlier_refl x : timestamp x <> NaN -> earlier x x.
Proof. unfold earlier. destruct (timestamp x); [lia | contradiction]. Qed.

Lemma sorted_snoc_greatest front x :
  timestamp x <> NaN ->
  StronglySorted earlier (front ++ [x]) ->
  forall c, In c (front ++ [x]) -> earlier c x.
Proof.
  intro Hx. induction front as [|a front IH]; simpl; intros Hs c Hin.
  - destruct Hin as [<-|[]]. now apply earlier_refl.
  - inversion Hs as [|? ? Hs' Hall]; subst.
    destruct Hin as [<-|Hin]; [|now apply IH].
    rewrite Forall_forall in Hall. apply Hall. apply in_or_app. right. now left.
Qed.

Lemma sorted_last_greatest l :
  stamped l ->
  StronglySorted earlier l ->
  forall last c, at_last l = Some last -> In c l -> earlier c last.
Proof.
  intros Hst Hs last c Hlast Hin.
  destruct (at_last_snoc l last Hlast) as [front ->].
  apply (sorted_snoc_greatest front last); [|exact Hs|exact Hin].
  apply Hst. apply in_or_app. right. now left.
Qed.

Lemma objects_Some elements rows :
  objects elements = Some rows -> elements = map Object rows.
Proof.
  revert rows. induction elements as [|[|row] rest IH]; intros rows H; simpl in H.
  - now injection H as <-.
  - discriminate.
  - destruct (objects rest) as [rs|]; [|discriminate].
    injection H as <-. simpl. now rewrite (IH rs eq_refl).
Qed.


Lemma fetchData_Some {host : Host} response df :
  fetchData response = Some df ->
  exists data rows,
    response = Some data /\ result data = Rows (map Object rows)
    /\ truthy (success data) = true /\ rows <> [] /\ df = normalize rows.
Proof.
  unfold fetchData. destruct response as [data|]; [|discriminate].
  destruct (truthy (success data)) eqn:Hs; simpl; [|discriminate].
  destruct (result data) as [|elements|b] eqn:Hr; try discriminate.
  destruct elements as [|e elements]; simpl length; [discriminate|].
  cbn [Nat.eqb].
  destruct (objects (e :: elements)) as [rows|] eqn:Ho; [|discriminate].
  intro H. injection H as <-. exists data, rows.
  pose proof (objects_Some _ _ Ho) as He. rewrite Hr, He.
  repeat split; try assumption.
  intros ->. discriminate He.
Qed.

(** X1.  When none of the candles [fetchData] returns has a NaN timestamp
    (every row kept has a time [parseInt] reads an integer from), the
    candles are in ascending order of timestamp, whatever the order of the
    rows in the answer; so the last one, which the loop takes as the latest
    bar, has the greatest timestamp. *)
Theorem fetchData_ascending :
  forall (host : Host) (response : option Payload) (df : list Candle),
    fetchData response = Some df ->
    stamped df ->
    StronglySorted earlier df
    /\ (forall last c, at_last df = Some last -> In c df -> earlier c last).
Proof.
  intros host response df H Hst.
  destruct (fetchData_Some response df H) as (data & rows & _ & _ & _ & _ & ->).
  unfold normalize in *.
  assert (Hst' : stamped (map toCandle (filter keepRow rows)))
    by exact (stamped_perm _ _ (sortByTimestamp_perm _) Hst).
  pose proof (sortByTimestamp_sorted _ Hst') as Hs.
  split; [exact Hs|].
  intros last c Hlast Hin. exact (sorted_last_greatest _ Hst Hs last c Hlast Hin).
Qed.

Lemma fetchData_ascending_witness :
  map timestamp (@normalize sampleHost shuffledRows)
  = [Num 1699920000000; Num 1699920000000; Num 1699927200000]
  /\ StronglySorted earlier (@normalize sampleHost shuffledRows).
Proof.
  split; [reflexivity|].
  refine (proj1 (fetchData_ascending sampleHost (Some shuffledPayload)
                   (@normalize sampleHost shuffledRows) eq_refl _)).
  intros c Hc. vm_compute in Hc.
  destruct Hc as [<-|[<-|[<-|[]]]]; discriminate.
Defined.

(** X2.  [fetchData] neither invents nor loses nor merges candles: what it
    returns is a rearrangement of the candles of the rows that pass the
    filter, one candle per such row (rows of equal time are all kept), each
    made from a row whose five fields are all truthy.  When no timestamp is
    NaN, candles of equal timestamp stay in the order their rows had in the
    answer. *)
Theorem fetchData_provenance :
  forall (host : Host) (data : Payload) (elements : list Element) (df : list Candle),
    result data = Rows elements ->
    fetchData (Some data) = Some df ->
    exists rows,
      elements = map Object rows
      /\ Permutation df (map toCandle (filter keepRow rows))
      /\ length df = length (filter keepRow rows)
      /\ (length df <= length elements)%nat
      /\ (forall c, In c df ->
            exists r, In (Object r) elements /\ c = toCandle r
                      /\ truthy (row_open r) = true /\ truthy (row_high r) = true
                      /\ truthy (row_low r) = true /\ truthy (row_close r) = true
                      /\ truthy (row_time r) = true)
      /\ (stamped df ->
          forall t, filter (fun c => strictEq (timestamp c) (Num t)) df
                    = filter (fun c => strictEq (timestamp c) (Num t))
                        (map toCandle (filter keepRow rows))).
Proof.
  intros host data elements df Hr H.
  destruct (fetchData_Some (Some data) df H) as (data' & rows & Hd & Hr' & _ & _ & ->).
  injection Hd as <-. rewrite Hr in Hr'. injection Hr' as ->.
  pose proof (sortByTimestamp_perm (map toCandle (filter keepRow rows))) as Hperm.
  exists rows. unfold normalize. split; [reflexivity|]. split; [exact Hperm|].
  split; [|split; [|split]].
  - now rewrite (Permutation_length Hperm), length_map.
  - rewrite (Permutation_length Hperm), !length_map. apply filter_length_le.
  - intros c Hin. apply (Permutation_in _ Hperm) in Hin.
    apply in_map_iff in Hin. destruct Hin as [r [<- Hin]].
    apply filter_In in Hin. destruct Hin as [Hin Hkeep].
    rewrite keepRow_spec in Hkeep.
    repeat (apply andb_true_iff in Hkeep; destruct Hkeep as [Hkeep ?]).
    exists r. repeat split; try assumption. now apply in_map.
  - intros Hst t. apply sortByTimestamp_stable.
    exact (stamped_perm _ _ Hperm Hst).
Qed.

Lemma fetchData_provenance_witness :
  map (fun c => (timestamp c, truncZ (close c))) (@normalize sampleHost shuffledRows)
  = [(Num 1699920000000, 60010); (Num 1699920000000, 60015);
     (Num 1699927200000, 60020)]%Z
  /\ exists rows,
      map Object shuffledRows = map Object rows
      /\ Permutation (@normalize sampleHost shuffledRows)
           (map (@toCandle sampleHost) (filter keepRow rows)).
Proof.
  split; [reflexivity|].
  destruct (fetchData_provenance sampleHost shuffledPayload (map Object shuffledRows)
              (@normalize sampleHost shuffledRows) eq_refl eq_refl)
    as [rows (He & Hp & _)].
  exists rows. split; assumption.
Defined.


Lemma sortByTimestamp_nil {host : Host} : sortByTimestamp [] = [].
Proof. reflexivity. Qed.



(** ** Indicator engine: no look-ahead *)

Lemma map_from_app {A B : Type} (f : A -> nat -> B) (a b : list A) :
  forall i, map_from f i (a ++ b) = map_from f i a ++ map_from f (i + length a) b.
Proof.
  induction a as [|x rest IH]; intro i; simpl.
  - now rewrite Nat.add_0_r.
  - rewrite IH. now rewrite Nat.add_succ_r.
Qed.

Lemma map_from_ext {A B : Type} (f g : A -> nat -> B) (arr : list A) :
  forall i,
    (forall k x, (k < length arr)%nat -> f x (i + k)%nat = g x (i + k)%nat) ->
    map_from f i arr = map_from g i arr.
Proof.
  induction arr as [|x rest IH]; intros i H; simpl; [reflexivity|].
  f_equal.
  - specialize (H 0%nat x). rewrite Nat.add_0_r in H. apply H. simpl. lia.
  - apply IH. intros k y Hk. specialize (H (S k) y).
    rewrite Nat.add_succ_r in H. apply H. simpl. lia.
Qed.

Lemma get_app_left (a b : list float) i : (i < length a)%nat -> get (a ++ b) i = get a i.
Proof. intro H. unfold get. now apply app_nth1. Qed.

Lemma ema_loop_app multiplier s t :
  forall prev,
    ema_loop multiplier prev (s ++ t)
    = ema_loop multiplier prev s
        ++ ema_loop multiplier (last (ema_loop multiplier prev s) prev) t.
Proof.
  induction s as [|x rest IH]; intro prev; [reflexivity|].
  cbn [app ema_loop]. cbv zeta. rewrite IH. cbn [app]. f_equal. f_equal. f_equal.
  set (r := (x * multiplier + prev * (1 - multiplier))%float).
  destruct (ema_loop multiplier r rest) as [|y ys] eqn:E; [reflexivity|].
  change (last (y :: ys) r = last (y :: ys) prev). apply last_default.
Qed.

(** The outputs of [ema] on a series are the first outputs of [ema] on any
    longer series that begins with it. *)
Lemma ema_app s t len : exists tail, ema (s ++ t) len = ema s len ++ tail.
Proof.
  unfold ema. destruct s as [|x0 rest].
  - eexists. reflexivity.
  - cbn [app]. rewrite ema_loop_app. eexists. reflexivity.
Qed.

Lemma firstn_app_exact {A : Type} (a b : list A) n :
  n = length a -> firstn n (a ++ b) = a.
Proof.
  intros ->. rewrite firstn_app, Nat.sub_diag, firstn_all. simpl. apply app_nil_r.
Qed.

(** X4.  [ema] does not look ahead: its outputs for a series stay the same
    when later values are appended to the series. *)
Theorem ema_prefix :
  forall (s t : list float) (len : float),
    firstn (length s) (ema (s ++ t) len) = ema s len.
Proof.
  intros s t len. destruct (ema_app s t len) as [tail ->].
  apply firstn_app_exact. now rewrite ema_length.
Qed.

(** X5.  [tillsonT3Series] does not look ahead: for series of one length,
    its outputs stay the same when later bars are appended to all three. *)
Theorem tillsonT3Series_prefix :
  forall (host : Host) (high low close high' low' close' : list float) (len a : float),
    length high = length close ->
    length low = length close ->
    firstn (length close)
      (tillsonT3Series (high ++ high') (low ++ low') (close ++ close') len a)
    = tillsonT3Series high low close len a.
Proof.
  intros host high low close high' low' close' len a Hh Hl.
  unfold tillsonT3Series. cbv zeta.
  set (g := fun (c : float) (i : nat) => ((get high i + get low i + 2 * c) / 4)%float).
  set (g' := fun (c : float) (i : nat) =>
               ((get (high ++ high') i + get (low ++ low') i + 2 * c) / 4)%float).
  assert (Hsrc : exists r, Array_map g' (close ++ close') = Array_map g close ++ r).
  { unfold Array_map. rewrite map_from_app. eexists. f_equal.
    apply map_from_ext. intros k x Hk. unfold g, g'. simpl.
    rewrite !get_app_left by lia. reflexivity. }
  destruct Hsrc as [r0 ->].
  set (src := Array_map g close).
  destruct (ema_app src r0 len) as [r1 ->].
  destruct (ema_app (ema src len) r1 len) as [r2 ->].
  destruct (ema_app (ema (ema src len) len) r2 len) as [r3 ->].
  set (e3 := ema (ema (ema src len) len) len).
  destruct (ema_app e3 r3 len) as [r4 ->].
  destruct (ema_app (ema e3 len) r4 len) as [r5 ->].
  destruct (ema_app (ema (ema e3 len) len) r5 len) as [r6 ->].
  assert (Hlen3 : length e3 = length close).
  { unfold e3, src. now rewrite !ema_length, Array_map_length. }
  unfold Array_map at 1. rewrite map_from_app.
  rewrite firstn_app_exact by (now rewrite map_from_length).
  apply map_from_ext. intros k x Hk. simpl.
  rewrite !get_app_left; [reflexivity | | | | ]; rewrite ?ema_length; exact Hk.
Qed.

Lemma tillsonT3Series_prefix_witness :
  firstn 3 (@tillsonT3Series sampleHost [3; 4; 5; 9]%float [1; 2; 3; 7]%float
              [2; 3; 4; 8]%float length1 a1)
  = @tillsonT3Series sampleHost [3; 4; 5]%float [1; 2; 3]%float [2; 3; 4]%float length1 a1.
Proof.
  exact (tillsonT3Series_prefix sampleHost [3; 4; 5]%float [1; 2; 3]%float [2; 3; 4]%float
           [9]%float [7]%float [8]%float length1 a1 eq_refl eq_refl).
Defined.

(** ** Indicator engine: NaN *)

Lemma nan_of_spec (x : float) : Prim2SF x = S754_nan -> x = PrimFloat.nan.
Proof. intro H. rewrite <- (SF2Prim_Prim2SF x), H. reflexivity. Qed.

Lemma add_nan_l (y : float) : (PrimFloat.nan + y)%float = PrimFloat.nan.
Proof. apply nan_of_spec. rewrite FloatAxioms.add_spec. reflexivity. Qed.

Lemma add_nan_r (x : float) : (x + PrimFloat.nan)%float = PrimFloat.nan.
Proof.
  apply nan_of_spec. rewrite FloatAxioms.add_spec.
  change (Prim2SF PrimFloat.nan) with S754_nan. now destruct (Prim2SF x).
Qed.

Lemma mul_nan_l (y : float) : (PrimFloat.nan * y)%float = PrimFloat.nan.
Proof. apply nan_of_spec. rewrite FloatAxioms.mul_spec. reflexivity. Qed.

Lemma mul_nan_r (x : float) : (x * PrimFloat.nan)%float = PrimFloat.nan.
Proof.
  apply nan_of_spec. rewrite FloatAxioms.mul_spec.
  change (Prim2SF PrimFloat.nan) with S754_nan. now destruct (Prim2SF x).
Qed.

Lemma div_nan_l (y : float) : (PrimFloat.nan / y)%float = PrimFloat.nan.
Proof. apply nan_of_spec. rewrite FloatAxioms.div_spec. reflexivity. Qed.

(** [nan > x] is false. *)
Lemma ltb_nan_r (x : float) : PrimFloat.ltb x PrimFloat.nan = false.
Proof.
  rewrite FloatAxioms.ltb_spec. change (Prim2SF PrimFloat.nan) with S754_nan.
  unfold SFltb. now destruct (Prim2SF x).
Qed.

Lemma ema_loop_from_nan multiplier series :
  forall j, (j < length series)%nat ->
            nth_error (ema_loop multiplier PrimFloat.nan series) j = Some PrimFloat.nan.
Proof.
  induction series as [|x rest IH]; intros j Hj; simpl in Hj; [lia|].
  cbn [ema_loop]. cbv zeta. rewrite mul_nan_l, add_nan_r.
  destruct j as [|j]; [reflexivity|]. apply IH. lia.
Qed.

Lemma ema_loop_nan multiplier series :
  forall prev k j,
    nth_error series k = Some PrimFloat.nan ->
    (k <= j < length series)%nat ->
    nth_error (ema_loop multiplier prev series) j = Some PrimFloat.nan.
Proof.
  induction series as [|x rest IH]; intros prev k j Hk Hj; simpl in Hj; [lia|].
  cbn [ema_loop]. cbv zeta. destruct k as [|k].
  - injection Hk as ->. rewrite mul_nan_l, add_nan_l.
    destruct j as [|j]; [reflexivity|]. apply ema_loop_from_nan. lia.
  - destruct j as [|j]; [lia|]. apply (IH _ k j Hk). lia.
Qed.

Lemma ema_nan series len k j :
  nth_error series k = Some PrimFloat.nan ->
  (k <= j < length series)%nat ->
  nth_error (ema series len) j = Some PrimFloat.nan.
Proof.
  unfold ema. destruct series as [|x0 rest]; intros Hk Hj; simpl in Hj; [lia|].
  destruct k as [|k].
  - injection Hk as ->. destruct j as [|j]; [reflexivity|].
    apply ema_loop_from_nan. lia.
  - destruct j as [|j]; [lia|]. apply (ema_loop_nan _ _ _ k j Hk). lia.
Qed.

(** X6.  NaN spreads forward through [ema]: when the series holds NaN at
    index k, every output from index k on is NaN. *)
Theorem ema_nan_spreads :
  forall (series : list float) (len : float) (k : nat),
    nth_error series k = Some PrimFloat.nan ->
    forall j, (k <= j < length series)%nat ->
              nth_error (ema series len) j = Some PrimFloat.nan.
Proof. intros series len k Hk j Hj. now apply (ema_nan series len k j). Qed.

Lemma ema_nan_spreads_witness :
  ema [1; PrimFloat.nan; 3; 4]%float 8%float
  = [1%float; PrimFloat.nan; PrimFloat.nan; PrimFloat.nan]
  /\ nth_error (ema [1; PrimFloat.nan; 3; 4]%float 8%float) 3 = Some PrimFloat.nan.
Proof.
  split; [reflexivity|].
  exact (ema_nan_spreads [1; PrimFloat.nan; 3; 4]%float 8%float 1 eq_refl 3
           (conj (le_S _ _ (le_S _ _ (le_n 1))) (le_n 4))).
Defined.

Lemma at_last_nth_error {A : Type} (l : list A) :
  at_last l = nth_error l (length l - 1).
Proof.
  destruct l as [|y rest]; [reflexivity|].
  destruct (exists_last (l := y :: rest)) as [front [a E]]; [discriminate|].
  rewrite E, at_last_app, length_app. simpl.
  replace (length front + 1 - 1)%nat with (length front) by lia.
  now rewrite nth_error_app2, Nat.sub_diag by lia.
Qed.

Lemma tillsonT3Series_nan {host : Host} high low close len a k j :
  (get high k = PrimFloat.nan \/ get low k = PrimFloat.nan \/ get close k = PrimFloat.nan) ->
  (k <= j < length close)%nat ->
  nth_error (tillsonT3Series high low close len a) j = Some PrimFloat.nan.
Proof.
  intros Hnan Hj. unfold tillsonT3Series. cbv zeta.
  set (g := fun (c : float) (i : nat) => ((get high i + get low i + 2 * c) / 4)%float).
  set (src := Array_map g close).
  assert (Hsrc : nth_error src k = Some PrimFloat.nan).
  { destruct (nth_error close k) as [c|] eqn:Hc;
      [|apply nth_error_None in Hc; lia].
    unfold src. rewrite (Array_map_nth_error g close k c Hc). f_equal. unfold g.
    rewrite <- (get_nth_error close k c Hc).
    destruct Hnan as [-> | [-> | ->]].
    - now rewrite !add_nan_l, div_nan_l.
    - now rewrite add_nan_r, add_nan_l, div_nan_l.
    - now rewrite mul_nan_r, add_nan_r, div_nan_l. }
  assert (Hlen : length src = length close) by apply Array_map_length.
  assert (Hstep : forall s, length s = length close ->
                            (forall i, (k <= i < length close)%nat ->
                                       nth_error s i = Some PrimFloat.nan) ->
                            length (ema s len) = length close
                            /\ forall i, (k <= i < length close)%nat ->
                                         nth_error (ema s len) i = Some PrimFloat.nan).
  { intros s Hs Hall. split; [now rewrite ema_length|].
    intros i Hi. apply (ema_nan s len k i); [apply Hall; lia | lia]. }
  assert (H0 : forall i, (k <= i < length close)%nat -> nth_error (ema src len) i = Some PrimFloat.nan).
  { intros i Hi. apply (ema_nan src len k i Hsrc). lia. }
  assert (L1 : length (ema src len) = length close) by now rewrite ema_length.
  destruct (Hstep _ L1 H0) as [L2 H2].
  destruct (Hstep _ L2 H2) as [L3 H3].
  destruct (Hstep _ L3 H3) as [L4 H4].
  set (e3 := ema (ema (ema src len) len) len) in *.
  rewrite (Array_map_nth_error _ e3 j PrimFloat.nan (H3 j Hj)).
  f_equal. rewrite (get_nth_error e3 j PrimFloat.nan (H3 j Hj)).
  now rewrite mul_nan_r, add_nan_r.
Qed.

Lemma colors_last_nan t3 :
  (2 <= length t3)%nat ->
  at_last t3 = Some PrimFloat.nan ->
  lastIs red (colors t3) = true /\ lastIs green (colors t3) = false.
Proof.
  intros Hlen Hlast. unfold lastIs.
  rewrite at_last_nth_error, colors_length.
  rewrite at_last_nth_error in Hlast.
  rewrite (colors_nth_error t3 _ _ Hlast).
  destruct (length t3 - 1)%nat as [|n] eqn:E; [lia|].
  now rewrite ltb_nan_r.
Qed.

(** X7.  One NaN among the high, low or close values of a window of two or
    more bars makes every later output of [tillsonT3Series] NaN, and with it
    the colour of the last bar red, never green. *)
Theorem nan_price_colours_red :
  forall (host : Host) (high low close : list float) (len a : float) (k : nat),
    (k < length close)%nat ->
    (2 <= length close)%nat ->
    (get high k = PrimFloat.nan \/ get low k = PrimFloat.nan \/ get close k = PrimFloat.nan) ->
    (forall j, (k <= j < length close)%nat ->
               nth_error (tillsonT3Series high low close len a) j = Some PrimFloat.nan)
    /\ lastIs red (colors (tillsonT3Series high low close len a)) = true
    /\ lastIs green (colors (tillsonT3Series high low close len a)) = false.
Proof.
  intros host high low close len a k Hk Hlen Hnan.
  split; [intros j Hj; now apply (tillsonT3Series_nan high low close len a k j)|].
  apply colors_last_nan; [now rewrite tillsonT3Series_length|].
  rewrite at_last_nth_error, tillsonT3Series_length.
  apply (tillsonT3Series_nan high low close len a k); [exact Hnan | lia].
Qed.

Lemma nan_price_colours_red_witness :
  lastIs red (colors (@tillsonT3Series sampleHost [3; 4; 5; 6]%float [1; 2; 3; 4]%float
                        [2; PrimFloat.nan; 4; 5]%float length1 a1)) = true.
Proof.
  exact (proj1 (proj2 (nan_price_colours_red sampleHost [3; 4; 5; 6]%float [1; 2; 3; 4]%float
                         [2; PrimFloat.nan; 4; 5]%float length1 a1 1
                         (le_n_S _ _ (le_n_S _ _ (Nat.le_0_l 2)))
                         (le_n_S _ _ (le_n_S _ _ (Nat.le_0_l 2)))
                         (or_intror (or_intror eq_refl))))).
Defined.

(** ** Trend monitor: what a turn decides *)

Lemma trendDiffers_false t l : trendDiffers t l = false -> l = Some t.
Proof.
  destruct l as [u|]; simpl; [|discriminate].
  destruct t, u; simpl; intro H; try discriminate; reflexivity.
Qed.

Lemma trendDiffers_true t l : trendDiffers t l = true -> l <> Some t.
Proof.
  destruct l as [u|]; simpl; [|discriminate].
  destruct t, u; simpl; intros H E; try discriminate.
Qed.

Lemma lastIs_exclusive cs : lastIs green cs = true -> lastIs red cs = false.
Proof. unfold lastIs. destruct (at_last cs) as [[| |]|]; simpl; congruence. Qed.

Section NaNCandle.

Context {host : Host}.
Variable df : list Candle.
Variable c : Candle.
Hypothesis Hlen : (20 <= length df)%nat.
Hypothesis Hin : In c df.
Hypothesis Hnan :
  high c = PrimFloat.nan \/ low c = PrimFloat.nan \/ close c = PrimFloat.nan.


Lemma at_last_some : exists last, at_last df = Some last.
Proof. destruct df as [|x rest]; [simpl in Hlen; lia|]. eexists. reflexivity. Qed.

Lemma not_short : (length df <? 20)%nat = false.
Proof. apply Nat.ltb_ge. exact Hlen. Qed.

End NaNCandle.



Lemma quiet_sleep ms : quiet [Sleep ms].
Proof. repeat split. Qed.

Lemma quiet_nil : quiet [].
Proof. repeat split. Qed.

Section Outcomes.

Context {host : Host}.
Variable env : Env.

Lemma Bot_cycle_outcome st poll :
  (Bot.lastTrend (fst (Bot.cycle env st poll)) = Bot.lastTrend st
   /\ Bot.logs (fst (Bot.cycle env st poll)) = Bot.logs st
   /\ quiet (snd (Bot.cycle env st poll)))
  \/ (exists t tm,
         Bot.lastTrend st <> Some t
         /\ Bot.lastTrend (fst (Bot.cycle env st poll)) = Some t
         /\ Bot.logs (fst (Bot.cycle env st poll))
            = pushLog (Bot.logs st) {| trend := t; time := tm |}
         /\ announces (Bot.logs (fst (Bot.cycle env st poll))) (snd (Bot.cycle env st poll))).
Proof.
  unfold Bot.cycle. cbv zeta.
  split_turn; try (left; repeat split; reflexivity).
  right. do 2 eexists. split; [exact (trendDiffers_true _ _ Hdiff)|].
  split; [reflexivity|]. split; [reflexivity|].
  unfold announces, Bot.sendTelegram. simpl. split; [eexists; reflexivity|]. split; [reflexivity|lia].
Qed.

Lemma Part001_cycle_outcome st poll :
  (Part001.lastTrend (fst (Part001.cycle env st poll)) = Part001.lastTrend st
   /\ Part001.logs (fst (Part001.cycle env st poll)) = Part001.logs st
   /\ quiet (snd (Part001.cycle env st poll)))
  \/ (exists t tm,
         Part001.lastTrend st <> Some t
         /\ Part001.lastTrend (fst (Part001.cycle env st poll)) = Some t
         /\ Part001.logs (fst (Part001.cycle env st poll))
            = pushLog (Part001.logs st) {| trend := t; time := tm |}
         /\ announces (Part001.logs (fst (Part001.cycle env st poll)))
              (snd (Part001.cycle env st poll))).
Proof.
  unfold Part001.cycle. cbv zeta.
  split_turn; try (left; repeat split; reflexivity).
  right. do 2 eexists. split; [exact (trendDiffers_true _ _ Hdiff)|].
  split; [reflexivity|]. split; [reflexivity|].
  unfold announces, Part001.sendTelegram.
  destruct (missing (BOT_TOKEN env) || missing (CHAT_ID env)); simpl;
    (split; [eexists; reflexivity|]); (split; [reflexivity|lia]).
Qed.

Lemma Part000_sendTelegram_posted st n ok msg :
  snd (Part000.sendTelegram env st n ok msg) = []
  \/ snd (Part000.sendTelegram env st n ok msg) = [Post env msg].
Proof.
  unfold Part000.sendTelegram.
  destruct (_ <? _)%Z; [now left|].
  destruct (_ || _); [now left|].
  destruct ok; now right.
Qed.

Lemma Part000_cycle_outcome st poll :
  (Part000.lastTrend (fst (Part000.cycle env st poll)) = Part000.lastTrend st
   /\ Part000.logs (fst (Part000.cycle env st poll)) = Part000.logs st
   /\ quiet (snd (Part000.cycle env st poll)))
  \/ (exists t tm,
         Part000.lastTrend st <> Some t
         /\ Part000.lastTrend (fst (Part000.cycle env st poll)) = Some t
         /\ Part000.logs (fst (Part000.cycle env st poll))
            = pushLog (Part000.logs st) {| trend := t; time := tm |}
         /\ announces (Part000.logs (fst (Part000.cycle env st poll)))
              (snd (Part000.cycle env st poll))).
Proof.
  unfold Part000.cycle. cbv zeta.
  split_turn; try (left; repeat split; reflexivity).
  right.
  match type of Hsend with
  | Part000.sendTelegram ?e ?s ?n ?o ?m = _ =>
      pose proof (Part000_sendTelegram_frame e s n o m) as Hframe;
      pose proof (Part000_sendTelegram_posted s n o m) as Hposted
  end.
  rewrite Hsend in Hframe, Hposted. simpl in Hframe, Hposted.
  destruct Hframe as (_ & _ & Hlogs & _).
  do 2 eexists. split; [exact (trendDiffers_true _ _ Hdiff)|].
  split; [reflexivity|]. simpl. rewrite Hlogs. split; [reflexivity|].
  unfold announces.
  destruct Hposted as [-> | ->]; simpl;
    (split; [eexists; reflexivity|]); (split; [reflexivity|lia]).
Qed.

End Outcomes.

(** X9.  In each of the three files a turn of the loop ends in one of two
    ways.  Either trend and log are as before and the turn calls no
    notifier, posts nothing and broadcasts nothing; or the recorded trend
    changes to a trend it was not, one entry with that trend is pushed on
    the log, the notifier is called exactly once, the new log is broadcast
    exactly once and at most one message is posted. *)
Theorem turn_outcomes :
  forall (host : Host) (env : Env) (poll : Poll),
    (forall st,
        (Bot.lastTrend (fst (Bot.cycle env st poll)) = Bot.lastTrend st
         /\ Bot.logs (fst (Bot.cycle env st poll)) = Bot.logs st
         /\ quiet (snd (Bot.cycle env st poll)))
        \/ (exists t tm,
               Bot.lastTrend st <> Some t
               /\ Bot.lastTrend (fst (Bot.cycle env st poll)) = Some t
               /\ Bot.logs (fst (Bot.cycle env st poll))
                  = pushLog (Bot.logs st) {| trend := t; time := tm |}
               /\ announces (Bot.logs (fst (Bot.cycle env st poll)))
                    (snd (Bot.cycle env st poll))))
    /\ (forall st,
        (Part000.lastTrend (fst (Part000.cycle env st poll)) = Part000.lastTrend st
         /\ Part000.logs (fst (Part000.cycle env st poll)) = Part000.logs st
         /\ quiet (snd (Part000.cycle env st poll)))
        \/ (exists t tm,
               Part000.lastTrend st <> Some t
               /\ Part000.lastTrend (fst (Part000.cycle env st poll)) = Some t
               /\ Part000.logs (fst (Part000.cycle env st poll))
                  = pushLog (Part000.logs st) {| trend := t; time := tm |}
               /\ announces (Part000.logs (fst (Part000.cycle env st poll)))
                    (snd (Part000.cycle env st poll))))
    /\ (forall st,
        (Part001.lastTrend (fst (Part001.cycle env st poll)) = Part001.lastTrend st
         /\ Part001.logs (fst (Part001.cycle env st poll)) = Part001.logs st
         /\ quiet (snd (Part001.cycle env st poll)))
        \/ (exists t tm,
               Part001.lastTrend st <> Some t
               /\ Part001.lastTrend (fst (Part001.cycle env st poll)) = Some t
               /\ Part001.logs (fst (Part001.cycle env st poll))
                  = pushLog (Part001.logs st) {| trend := t; time := tm |}
               /\ announces (Part001.logs (fst (Part001.cycle env st poll)))
                    (snd (Part001.cycle env st poll)))).
Proof.
  intros host env poll. split; [|split]; intro st.
  - apply Bot_cycle_outcome.
  - apply Part000_cycle_outcome.
  - apply Part001_cycle_outcome.
Qed.

(** ** Trend monitor: trend and log agree *)

Lemma alternates_tail a rest : alternates (a :: rest) = true -> alternates rest = true.
Proof.
  destruct rest as [|b rest']; [reflexivity|].
  cbn [alternates]. intro H. apply andb_true_iff in H. exact (proj2 H).
Qed.

Lemma alternates_skipn n : forall l, alternates l = true -> alternates (skipn n l) = true.
Proof.
  induction n as [|n IH]; intros l H; [exact H|].
  destruct l as [|a rest]; [reflexivity|].
  simpl. apply IH. exact (alternates_tail a rest H).
Qed.

Lemma at_last_cons {A : Type} (a b : A) rest :
  at_last (a :: b :: rest) = at_last (b :: rest).
Proof.
  unfold at_last. f_equal. destruct rest as [|c rest']; [reflexivity|].
  change (last (c :: rest') a = last (c :: rest') b). apply last_default.
Qed.

Lemma alternates_snoc l e :
  alternates l = true ->
  (forall x, at_last l = Some x -> trend x <> trend e) ->
  alternates (l ++ [e]) = true.
Proof.
  induction l as [|a rest IH]; intros Halt Hlast; [reflexivity|].
  destruct rest as [|b rest'].
  - cbn. rewrite andb_true_r.
    specialize (Hlast a eq_refl). destruct (trend a), (trend e); simpl; congruence.
  - cbn [app alternates] in *. apply andb_true_iff in Halt. destruct Halt as [Hab Hrest].
    apply andb_true_iff. split; [exact Hab|].
    apply IH; [exact Hrest|].
    intros x Hx. apply Hlast. now rewrite at_last_cons.
Qed.

Lemma at_last_skipn {A : Type} n (l : list A) :
  (n < length l)%nat -> at_last (skipn n l) = at_last l.
Proof.
  intro H. rewrite !at_last_nth_error, length_skipn.
  rewrite nth_error_skipn. f_equal. lia.
Qed.

Lemma pushLog_last l e : at_last (pushLog l e) = Some e.
Proof.
  unfold pushLog, slice_last.
  destruct (50 <? length (l ++ [e]))%nat eqn:H.
  - rewrite at_last_skipn; [apply at_last_app|].
    apply Nat.ltb_lt in H. lia.
  - apply at_last_app.
Qed.

Lemma pushLog_alternates l e :
  alternates l = true ->
  (forall x, at_last l = Some x -> trend x <> trend e) ->
  alternates (pushLog l e) = true.
Proof.
  intros Halt Hlast. unfold pushLog, slice_last.
  pose proof (alternates_snoc l e Halt Hlast) as H.
  destruct (50 <? length (l ++ [e]))%nat; [now apply alternates_skipn | exact H].
Qed.

Lemma consistent_initial : consistent None [].
Proof. repeat split. simpl. lia. Qed.

Lemma consistent_push lastTrend logs t tm :
  consistent lastTrend logs ->
  lastTrend <> Some t ->
  consistent (Some t) (pushLog logs {| trend := t; time := tm |}).
Proof.
  intros (Hlast & Halt & Hlen) Hne. repeat split.
  - now rewrite pushLog_last.
  - apply pushLog_alternates; [exact Halt|].
    intros x Hx. simpl. intro E. apply Hne. rewrite <- Hlast, Hx. simpl. now rewrite E.
  - now apply pushLog_length.
Qed.

Section Consistency.

Context {host : Host}.
Variable env : Env.

Lemma Bot_cycle_consistent st poll :
  consistent (Bot.lastTrend st) (Bot.logs st) ->
  consistent (Bot.lastTrend (fst (Bot.cycle env st poll)))
    (Bot.logs (fst (Bot.cycle env st poll))).
Proof.
  intro H.
  destruct (Bot_cycle_outcome env st poll)
    as [(-> & -> & _) | (t & tm & Hne & -> & -> & _)]; [exact H|].
  exact (consistent_push _ _ t tm H Hne).
Qed.

Lemma Part000_cycle_consistent st poll :
  consistent (Part000.lastTrend st) (Part000.logs st) ->
  consistent (Part000.lastTrend (fst (Part000.cycle env st poll)))
    (Part000.logs (fst (Part000.cycle env st poll))).
Proof.
  intro H.
  destruct (Part000_cycle_outcome env st poll)
    as [(-> & -> & _) | (t & tm & Hne & -> & -> & _)]; [exact H|].
  exact (consistent_push _ _ t tm H Hne).
Qed.

Lemma Part001_cycle_consistent st poll :
  consistent (Part001.lastTrend st) (Part001.logs st) ->
  consistent (Part001.lastTrend (fst (Part001.cycle env st poll)))
    (Part001.logs (fst (Part001.cycle env st poll))).
Proof.
  intro H.
  destruct (Part001_cycle_outcome env st poll)
    as [(-> & -> & _) | (t & tm & Hne & -> & -> & _)]; [exact H|].
  exact (consistent_push _ _ t tm H Hne).
Qed.

End Consistency.

Section Awaiting.

Context {host : Host}.
Variable env : Env.

Lemma Bot_awaiting_spec st poll mid :
  Bot.awaiting st poll = Some mid ->
  exists t tm,
    Bot.logs mid = pushLog (Bot.logs st) {| trend := t; time := tm |}
    /\ Bot.lastTrend mid = Bot.lastTrend st
    /\ Bot.lastTrend st <> Some t
    /\ Bot.lastTrend (fst (Bot.cycle env st poll)) = Some t
    /\ Bot.logs (fst (Bot.cycle env st poll)) = Bot.logs mid
    /\ Bot.lastCandleTs (fst (Bot.cycle env st poll)) = Bot.lastCandleTs mid.
Proof.
  unfold Bot.awaiting, Bot.cycle. cbv zeta. cbn [Bot.lastTrend Bot.logs].
  split_turn; intro H; try discriminate H. injection H as <-.
  do 2 eexists. repeat split. exact (trendDiffers_true _ _ Hdiff).
Qed.

Lemma Part001_awaiting_spec st poll mid :
  Part001.awaiting st poll = Some mid ->
  exists t tm,
    Part001.logs mid = pushLog (Part001.logs st) {| trend := t; time := tm |}
    /\ Part001.lastTrend mid = Part001.lastTrend st
    /\ Part001.lastTrend st <> Some t
    /\ Part001.lastTrend (fst (Part001.cycle env st poll)) = Some t
    /\ Part001.logs (fst (Part001.cycle env st poll)) = Part001.logs mid
    /\ Part001.lastCandleTs (fst (Part001.cycle env st poll)) = Part001.lastCandleTs mid.
Proof.
  unfold Part001.awaiting, Part001.cycle. cbv zeta. cbn [Part001.lastTrend Part001.logs].
  split_turn; intro H; try discriminate H. injection H as <-.
  do 2 eexists. repeat split. exact (trendDiffers_true _ _ Hdiff).
Qed.

Lemma Part000_awaiting_spec st poll mid :
  Part000.awaiting st poll = Some mid ->
  exists t tm,
    Part000.logs mid = pushLog (Part000.logs st) {| trend := t; time := tm |}
    /\ Part000.lastTrend mid = Part000.lastTrend st
    /\ Part000.lastTrend st <> Some t
    /\ Part000.lastTrend (fst (Part000.cycle env st poll)) = Some t
    /\ Part000.logs (fst (Part000.cycle env st poll)) = Part000.logs mid
    /\ Part000.lastCandleTs (fst (Part000.cycle env st poll)) = Part000.lastCandleTs mid.
Proof.
  unfold Part000.awaiting, Part000.cycle. cbv zeta.
  split_turn; intro H; try discriminate H. injection H as <-.
  match type of Hsend with
  | Part000.sendTelegram ?e ?s ?n ?o ?m = _ =>
      pose proof (Part000_sendTelegram_frame e s n o m) as Hframe
  end.
  rewrite Hsend in Hframe. simpl in Hframe. destruct Hframe as (_ & Hc & Hl & _).
  do 2 eexists. simpl. rewrite Hc, Hl.
  repeat split. exact (trendDiffers_true _ _ Hdiff).
Qed.

End Awaiting.

Lemma awaiting_shape lastTrend logs mid_logs t tm :
  consistent lastTrend logs ->
  lastTrend <> Some t ->
  mid_logs = pushLog logs {| trend := t; time := tm |} ->
  (exists e, at_last mid_logs = Some e /\ trend e = t)
  /\ alternates mid_logs = true
  /\ (length mid_logs <= 50)%nat.
Proof.
  intros Hc Hne ->. destruct (consistent_push _ _ t tm Hc Hne) as (Hlast & Halt & Hlen).
  split; [|split; assumption].
  rewrite pushLog_last. eexists. split; reflexivity.
Qed.

Section Observable.

Context {host : Host}.
Variable env : Env.

Lemma Bot_reachable_consistent st :
  Bot_reachable env st -> consistent (Bot.lastTrend st) (Bot.logs st).
Proof.
  induction 1 as [|st poll _ IH]; [apply consistent_initial|].
  now apply Bot_cycle_consistent.
Qed.

Lemma Part000_reachable_consistent pid st :
  Part000_reachable env pid st -> consistent (Part000.lastTrend st) (Part000.logs st).
Proof.
  induction 1 as [st runs Hstart|st poll _ IH].
  - injection Hstart as <- _. apply consistent_initial.
  - now apply Part000_cycle_consistent.
Qed.

Lemma Part001_reachable_consistent st :
  Part001_reachable env st -> consistent (Part001.lastTrend st) (Part001.logs st).
Proof.
  induction 1 as [|st poll _ IH]; [apply consistent_initial|].
  now apply Part001_cycle_consistent.
Qed.

End Observable.

(** X10.  In each of the three files: in every state between two turns of a
    run the recorded trend is the trend of the newest log entry (and there
    is no recorded trend exactly as long as the log is empty).  While a turn
    awaits the notifier, the newest log entry already carries the trend the
    turn records when it ends; the recorded trend is still the one from
    before, which differs.  In both kinds of state, the ones a handler of
    the HTTP server can read, neighbouring log entries differ in trend (the
    log alternates between UPTREND and DOWNTREND) and the log has at most
    50 entries. *)
Theorem trend_and_log_agree :
  forall (host : Host) (env : Env) (pid : Z),
    ((forall st, Bot_reachable env st ->
                 option_map trend (at_last (Bot.logs st)) = Bot.lastTrend st
                 /\ (Bot.lastTrend st = None <-> Bot.logs st = []))
     /\ (forall st poll mid,
            Bot_reachable env st -> Bot.awaiting st poll = Some mid ->
            exists e,
              at_last (Bot.logs mid) = Some e
              /\ Bot.lastTrend mid = Bot.lastTrend st
              /\ Bot.lastTrend mid <> Some (trend e)
              /\ Bot.lastTrend (fst (Bot.cycle env st poll)) = Some (trend e)
              /\ Bot.logs (fst (Bot.cycle env st poll)) = Bot.logs mid)
     /\ (forall st, Bot_observable env st ->
                    alternates (Bot.logs st) = true /\ (length (Bot.logs st) <= 50)%nat))
    /\ ((forall st, Part000_reachable env pid st ->
                    option_map trend (at_last (Part000.logs st)) = Part000.lastTrend st
                    /\ (Part000.lastTrend st = None <-> Part000.logs st = []))
        /\ (forall st poll mid,
               Part000_reachable env pid st -> Part000.awaiting st poll = Some mid ->
               exists e,
                 at_last (Part000.logs mid) = Some e
                 /\ Part000.lastTrend mid = Part000.lastTrend st
                 /\ Part000.lastTrend mid <> Some (trend e)
                 /\ Part000.lastTrend (fst (Part000.cycle env st poll)) = Some (trend e)
                 /\ Part000.logs (fst (Part000.cycle env st poll)) = Part000.logs mid)
        /\ (forall st, Part000_observable env pid st ->
                       alternates (Part000.logs st) = true
                       /\ (length (Part000.logs st) <= 50)%nat))
    /\ ((forall st, Part001_reachable env st ->
                    option_map trend (at_last (Part001.logs st)) = Part001.lastTrend st
                    /\ (Part001.lastTrend st = None <-> Part001.logs st = []))
        /\ (forall st poll mid,
               Part001_reachable env st -> Part001.awaiting st poll = Some mid ->
               exists e,
                 at_last (Part001.logs mid) = Some e
                 /\ Part001.lastTrend mid = Part001.lastTrend st
                 /\ Part001.lastTrend mid <> Some (trend e)
                 /\ Part001.lastTrend (fst (Part001.cycle env st poll)) = Some (trend e)
                 /\ Part001.logs (fst (Part001.cycle env st poll)) = Part001.logs mid)
        /\ (forall st, Part001_observable env st ->
                       alternates (Part001.logs st) = true
                       /\ (length (Part001.logs st) <= 50)%nat)).
Proof.
  intros host env pid.
  assert (Hshape : forall lt logs, consistent lt logs ->
                                   option_map trend (at_last logs) = lt
                                   /\ (lt = None <-> logs = [])).
  { intros lt logs (Hlast & _ & _). split; [exact Hlast|].
    rewrite <- Hlast. destruct logs as [|a rest]; simpl; split; congruence. }
  split; [|split]; (split; [|split]).
  - intros st Hr. apply Hshape. now apply (Bot_reachable_consistent env).
  - intros st poll mid Hr Ha.
    destruct (Bot_awaiting_spec env st poll mid Ha) as (t & tm & Hl & Ht & Hne & Hend & Hlogs & _).
    destruct (awaiting_shape _ _ _ t tm (Bot_reachable_consistent env st Hr) Hne Hl)
      as ([e [He <-]] & _ & _).
    exists e. rewrite Ht. repeat split; assumption.
  - intros st Ho. destruct Ho as [st Hr | st poll mid Hr Ha].
    + now destruct (Bot_reachable_consistent env st Hr) as (_ & ? & ?).
    + destruct (Bot_awaiting_spec env st poll mid Ha) as (t & tm & Hl & _ & Hne & _).
      now destruct (awaiting_shape _ _ _ t tm (Bot_reachable_consistent env st Hr) Hne Hl)
        as (_ & ? & ?).
  - intros st Hr. apply Hshape. now apply (Part000_reachable_consistent env pid).
  - intros st poll mid Hr Ha.
    destruct (Part000_awaiting_spec env st poll mid Ha)
      as (t & tm & Hl & Ht & Hne & Hend & Hlogs & _).
    destruct (awaiting_shape _ _ _ t tm (Part000_reachable_consistent env pid st Hr) Hne Hl)
      as ([e [He <-]] & _ & _).
    exists e. rewrite Ht. repeat split; assumption.
  - intros st Ho. destruct Ho as [st Hr | st poll mid Hr Ha].
    + now destruct (Part000_reachable_consistent env pid st Hr) as (_ & ? & ?).
    + destruct (Part000_awaiting_spec env st poll mid Ha) as (t & tm & Hl & _ & Hne & _).
      now destruct (awaiting_shape _ _ _ t tm
                      (Part000_reachable_consistent env pid st Hr) Hne Hl) as (_ & ? & ?).
  - intros st Hr. apply Hshape. now apply (Part001_reachable_consistent env).
  - intros st poll mid Hr Ha.
    destruct (Part001_awaiting_spec env st poll mid Ha)
      as (t & tm & Hl & Ht & Hne & Hend & Hlogs & _).
    destruct (awaiting_shape _ _ _ t tm (Part001_reachable_consistent env st Hr) Hne Hl)
      as ([e [He <-]] & _ & _).
    exists e. rewrite Ht. repeat split; assumption.
  - intros st Ho. destruct Ho as [st Hr | st poll mid Hr Ha].
    + now destruct (Part001_reachable_consistent env st Hr) as (_ & ? & ?).
    + destruct (Part001_awaiting_spec env st poll mid Ha) as (t & tm & Hl & _ & Hne & _).
      now destruct (awaiting_shape _ _ _ t tm (Part001_reachable_consistent env st Hr) Hne Hl)
        as (_ & ? & ?).
Qed.

Lemma trend_and_log_agree_witness :
  (exists e,
      at_last (Bot.logs {| Bot.lastTrend := None;
                           Bot.lastCandleTs := Some (Num 1700092800000);
                           Bot.logs := [{| trend := UPTREND; time := "1700092800000" |}] |})
      = Some e
      /\ None <> Some (trend e))
  /\ alternates (Bot.logs (fst (@Bot.strategyLoop sampleHost sampleEnv Bot.initial
                                  [risingPoll; fallingPoll]))) = true.
Proof.
  pose proof (trend_and_log_agree sampleHost sampleEnv 1%Z) as [HBot _].
  split.
  - assert (Ha : @Bot.awaiting sampleHost Bot.initial risingPoll
                 = Some {| Bot.lastTrend := None;
                           Bot.lastCandleTs := Some (Num 1700092800000);
                           Bot.logs := [{| trend := UPTREND; time := "1700092800000" |}] |})
      by (vm_compute; reflexivity).
    destruct (proj1 (proj2 HBot) Bot.initial risingPoll _ (Bot_reach_initial sampleEnv) Ha)
      as [e (He & _ & Hne & _)].
    exists e. split; [exact He | exact Hne].
  - refine (proj1 (proj2 (proj2 HBot) _ (Bot_obs_between sampleEnv _ _))).
    change (fst (@Bot.strategyLoop sampleHost sampleEnv Bot.initial [risingPoll; fallingPoll]))
      with (fst (@Bot.cycle sampleHost sampleEnv
                   (fst (@Bot.cycle sampleHost sampleEnv Bot.initial risingPoll)) fallingPoll)).
    apply Bot_reach_cycle, Bot_reach_cycle, Bot_reach_initial.
Defined.

(** ** Trend monitor and notifier are decoupled *)

(** X11.  What a turn does to the recorded trend, the recorded bar and the
    log, and what it broadcasts, depends on the candles alone: not on the
    credentials, not on the clock, not on whether a post goes through.  In
    [bot.js] and [part_001] that is the whole state; in [part_000] only the
    recorded delivery time can differ. *)
Theorem monitor_independent_of_delivery :
  forall (host : Host) (env env' : Env) (p p' : Poll),
    response p = response p' ->
    (forall st, fst (Bot.cycle env st p) = fst (Bot.cycle env' st p'))
    /\ (forall st, fst (Part001.cycle env st p) = fst (Part001.cycle env' st p'))
    /\ (forall st,
           Part000.lastTrend (fst (Part000.cycle env st p))
           = Part000.lastTrend (fst (Part000.cycle env' st p'))
           /\ Part000.lastCandleTs (fst (Part000.cycle env st p))
              = Part000.lastCandleTs (fst (Part000.cycle env' st p'))
           /\ Part000.logs (fst (Part000.cycle env st p))
              = Part000.logs (fst (Part000.cycle env' st p'))
           /\ filter isEmit (snd (Part000.cycle env st p))
              = filter isEmit (snd (Part000.cycle env' st p'))).
Proof.
  intros host env env' p p' Hresp. split; [|split]; intro st.
  - unfold Bot.cycle. cbv zeta. rewrite <- Hresp. split_turn; reflexivity.
  - unfold Part001.cycle. cbv zeta. rewrite <- Hresp. split_turn; reflexivity.
  - unfold Part000.cycle. cbv zeta. rewrite <- Hresp.
    split_turn; try (repeat split; reflexivity).
    repeat match goal with
           | H : Part000.sendTelegram ?e ?s ?n ?o ?m = _ |- _ =>
               let Hf := fresh "Hframe" in
               let Hp := fresh "Hposted" in
               pose proof (Part000_sendTelegram_frame e s n o m) as Hf;
               pose proof (Part000_sendTelegram_posted e s n o m) as Hp;
               rewrite H in Hf, Hp; simpl in Hf, Hp; clear H
           end.
    destruct Hframe as (Ht & Hc & Hl & _), Hframe0 as (Ht0 & Hc0 & Hl0 & _).
    simpl. rewrite Hc, Hc0, Hl, Hl0.
    repeat split.
    destruct Hposted as [-> | ->], Hposted0 as [-> | ->]; reflexivity.
Qed.

Lemma monitor_independent_of_delivery_witness :
  fst (@Bot.cycle sampleHost sampleEnv Bot.initial risingPoll)
  = fst (@Bot.cycle sampleHost noCredentials Bot.initial
           {| response := response risingPoll; now := 0; postOk := false |}).
Proof.
  exact (proj1 (monitor_independent_of_delivery sampleHost sampleEnv noCredentials risingPoll
                  {| response := response risingPoll; now := 0; postOk := false |} eq_refl)
           Bot.initial).
Defined.

Lemma Part000_sendTelegram_cases env st n ok msg :
  (Part000.sendTelegram env st n ok msg = (st, [])
   /\ ((n - Part000.lastAlertTs st < 600000)%Z
       \/ missing (BOT_TOKEN env) || missing (CHAT_ID env) = true))
  \/ ((600000 <= n - Part000.lastAlertTs st)%Z
      /\ missing (BOT_TOKEN env) || missing (CHAT_ID env) = false
      /\ Part000.sendTelegram env st n ok msg
         = (if ok then Part000.setLastAlertTs st n else st, [Post env msg])).
Proof.
  unfold Part000.sendTelegram.
  destruct (n - Part000.lastAlertTs st <? 10 * 60 * 1000)%Z eqn:Hcool.
  - left. apply Z.ltb_lt in Hcool. split; [reflexivity | left; lia].
  - apply Z.ltb_ge in Hcool.
    destruct (missing (BOT_TOKEN env) || missing (CHAT_ID env)) eqn:Hcred.
    + left. split; [reflexivity | now right].
    + right. split; [lia|]. split; [reflexivity|]. now destruct ok.
Qed.

(** X12.  In [part_000] a turn posts to Telegram only when both credentials
    are set and at least 10 minutes have passed since the recorded delivery
    time; the recorded delivery time changes only to the time of a post that
    went through, so it never goes back, and a post that failed leaves it
    as it was (the next call is not held back). *)
Theorem delivery_time_recorded :
  forall (host : Host) (env : Env) (st : Part000.botState) (poll : Poll),
    (filter isPost (snd (Part000.cycle env st poll)) <> [] ->
     (600000 <= now poll - Part000.lastAlertTs st)%Z
     /\ missing (BOT_TOKEN env) = false /\ missing (CHAT_ID env) = false)
    /\ (Part000.lastAlertTs (fst (Part000.cycle env st poll)) = Part000.lastAlertTs st
        \/ (Part000.lastAlertTs (fst (Part000.cycle env st poll)) = now poll
            /\ postOk poll = true
            /\ filter isPost (snd (Part000.cycle env st poll)) <> []))
    /\ (postOk poll = false ->
        Part000.lastAlertTs (fst (Part000.cycle env st poll)) = Part000.lastAlertTs st)
    /\ (Part000.lastAlertTs st <= Part000.lastAlertTs (fst (Part000.cycle env st poll)))%Z.
Proof.
  intros host env st poll.
  assert (H : (filter isPost (snd (Part000.cycle env st poll)) = []
               /\ Part000.lastAlertTs (fst (Part000.cycle env st poll))
                  = Part000.lastAlertTs st)
              \/ ((600000 <= now poll - Part000.lastAlertTs st)%Z
                  /\ missing (BOT_TOKEN env) || missing (CHAT_ID env) = false
                  /\ filter isPost (snd (Part000.cycle env st poll)) <> []
                  /\ Part000.lastAlertTs (fst (Part000.cycle env st poll))
                     = if postOk poll then now poll else Part000.lastAlertTs st)).
  { unfold Part000.cycle. cbv zeta.
    split_turn; try (left; split; reflexivity).
    match type of Hsend with
    | Part000.sendTelegram ?e ?s ?n ?o ?m = _ =>
        destruct (Part000_sendTelegram_cases e s n o m) as [[Hs _] | (Hgap & Hcred & Hs)];
        rewrite Hs in Hsend; injection Hsend as <- <-
    end.
    - left. split; reflexivity.
    - right. split; [exact Hgap|]. split; [exact Hcred|].
      split; [simpl; discriminate|]. now destruct (postOk poll). }
  destruct H as [[Hnone Hsame] | (Hgap & Hcred & Hpost & Hts)].
  - rewrite Hnone, Hsame.
    split; [intro C; contradiction|]. split; [now left|].
    split; [intros _; reflexivity | lia].
  - apply orb_false_iff in Hcred. destruct Hcred as [Hc1 Hc2].
    rewrite Hts. split; [intros _; now repeat split|].
    destruct (postOk poll).
    + split; [right; now repeat split|]. split; [discriminate | lia].
    + split; [now left|]. split; [reflexivity | lia].
Qed.

(** ** The 2 hour boundary of [part_000] *)

(** X13.  In [part_000], for a latest candle whose timestamp is a number,
    the timestamp a turn compares is a multiple of 2 hours, is at or below
    the candle's timestamp and less than 2 hours below it; a second candle
    is taken for the same bar ([===]) exactly when the two timestamps lie in
    the same 2 hour bar, and a candle stamped at that boundary gets it
    again.  For a latest candle whose timestamp is NaN the timestamp
    compared is NaN, which [===] equates with no recorded one. *)
Theorem candleTs_boundary :
  forall (a b : Candle),
    match timestamp a with
    | Num ta =>
        exists ca,
          Part000.candleTs a = Num ca
          /\ (ca mod 7200000 = 0)%Z
          /\ (ca <= ta < ca + 7200000)%Z
          /\ (forall tb, timestamp b = Num tb ->
                         (Part000.candleTs b = Num ca
                          <-> (tb / 7200000 = ta / 7200000)%Z)
                         /\ (sameCandle (Part000.candleTs b) (Some (Part000.candleTs a)) = true
                             <-> (tb / 7200000 = ta / 7200000)%Z))
          /\ (timestamp b = Num ca -> Part000.candleTs b = Num ca)
    | NaN =>
        Part000.candleTs a = NaN
        /\ (forall recorded, sameCandle (Part000.candleTs a) recorded = false)
        /\ sameCandle (Part000.candleTs b) (Some (Part000.candleTs a)) = false
    end.
Proof.
  intros a b. rewrite !Part000_candleTs_is_boundary.
  destruct (timestamp a) as [ta|]; cbn [onNumber].
  - exists (barBoundary ta). unfold barBoundary.
    pose proof (Z.div_mod ta 7200000 ltac:(lia)) as Hdm.
    pose proof (Z.mod_pos_bound ta 7200000 ltac:(lia)) as Hm.
    split; [reflexivity|]. split; [apply Z.mod_mul; lia|]. split; [lia|]. split.
    + intros tb ->. cbn [onNumber sameCandle strictEq]. split.
      * split; intro H; [injection H as H; lia | f_equal; lia].
      * rewrite Z.eqb_eq. split; intro H; lia.
    + intros ->. cbn [onNumber]. f_equal. rewrite Z.div_mul by lia. reflexivity.
  - split; [reflexivity|]. split; [apply sameCandle_NaN|].
    now destruct (onNumber barBoundary (timestamp b)).
Qed.

(** ** Whole runs *)

Lemma count_app (f : Effect -> bool) a b :
  length (filter f (a ++ b)) = (length (filter f a) + length (filter f b))%nat.
Proof. now rewrite filter_app, length_app. Qed.

Lemma pushLog_grows l e : (length (pushLog l e) <= length l + 1)%nat.
Proof.
  unfold pushLog, slice_last.
  destruct (50 <? length (l ++ [e]))%nat; rewrite ?length_skipn, length_app; simpl; lia.
Qed.

Lemma tally_of_outcome (lt lt' : option Trend) before after out :
  (lt' = lt /\ after = before /\ quiet out)
  \/ (exists t tm, lt <> Some t /\ lt' = Some t
                   /\ after = pushLog before {| trend := t; time := tm |}
                   /\ announces after out) ->
  tally before after out.
Proof.
  intros [(_ & -> & Hn & Hp & He) | (t & tm & _ & _ & Hafter & [msg Hn] & He & Hp)];
    unfold tally; rewrite Hn, He.
  - rewrite Hp. simpl. repeat split; lia.
  - simpl. repeat split; try lia. rewrite Hafter. apply pushLog_grows.
Qed.

Section Runs.

Context {host : Host}.
Variable env : Env.

Lemma Bot_run_tally polls :
  forall st,
    length (filter isEmit (snd (Bot.strategyLoop env st polls)))
    = length (filter isNotify (snd (Bot.strategyLoop env st polls)))
    /\ (length (filter isPost (snd (Bot.strategyLoop env st polls)))
        <= length (filter isNotify (snd (Bot.strategyLoop env st polls))))%nat
    /\ (length (filter isNotify (snd (Bot.strategyLoop env st polls))) <= length polls)%nat
    /\ (length (Bot.logs (fst (Bot.strategyLoop env st polls)))
        <= length (Bot.logs st)
           + length (filter isNotify (snd (Bot.strategyLoop env st polls))))%nat.
Proof.
  induction polls as [|poll rest IH]; intro st; [simpl; repeat split; lia|].
  cbn [Bot.strategyLoop].
  pose proof (tally_of_outcome _ _ _ _ _ (Bot_cycle_outcome env st poll)) as Ht.
  destruct (Bot.cycle env st poll) as [st1 out1]. simpl in Ht.
  specialize (IH st1). destruct (Bot.strategyLoop env st1 rest) as [st2 out2].
  simpl in *. rewrite !count_app. unfold tally in Ht. lia.
Qed.

Lemma Part000_run_tally polls :
  forall st,
    length (filter isEmit (snd (Part000.turns env st polls)))
    = length (filter isNotify (snd (Part000.turns env st polls)))
    /\ (length (filter isPost (snd (Part000.turns env st polls)))
        <= length (filter isNotify (snd (Part000.turns env st polls))))%nat
    /\ (length (filter isNotify (snd (Part000.turns env st polls))) <= length polls)%nat
    /\ (length (Part000.logs (fst (Part000.turns env st polls)))
        <= length (Part000.logs st)
           + length (filter isNotify (snd (Part000.turns env st polls))))%nat.
Proof.
  induction polls as [|poll rest IH]; intro st; [simpl; repeat split; lia|].
  cbn [Part000.turns].
  pose proof (tally_of_outcome _ _ _ _ _ (Part000_cycle_outcome env st poll)) as Ht.
  destruct (Part000.cycle env st poll) as [st1 out1]. simpl in Ht.
  specialize (IH st1). destruct (Part000.turns env st1 rest) as [st2 out2].
  simpl in *. rewrite !count_app. unfold tally in Ht. lia.
Qed.

Lemma Part001_run_tally polls :
  forall st,
    length (filter isEmit (snd (Part001.strategyLoop env st polls)))
    = length (filter isNotify (snd (Part001.strategyLoop env st polls)))
    /\ (length (filter isPost (snd (Part001.strategyLoop env st polls)))
        <= length (filter isNotify (snd (Part001.strategyLoop env st polls))))%nat
    /\ (length (filter isNotify (snd (Part001.strategyLoop env st polls))) <= length polls)%nat
    /\ (length (Part001.logs (fst (Part001.strategyLoop env st polls)))
        <= length (Part001.logs st)
           + length (filter isNotify (snd (Part001.strategyLoop env st polls))))%nat.
Proof.
  induction polls as [|poll rest IH]; intro st; [simpl; repeat split; lia|].
  cbn [Part001.strategyLoop].
  pose proof (tally_of_outcome _ _ _ _ _ (Part001_cycle_outcome env st poll)) as Ht.
  destruct (Part001.cycle env st poll) as [st1 out1]. simpl in Ht.
  specialize (IH st1). destruct (Part001.strategyLoop env st1 rest) as [st2 out2].
  simpl in *. rewrite !count_app. unfold tally in Ht. lia.
Qed.

Lemma Bot_run_reachable polls :
  forall st, Bot_reachable env st -> Bot_reachable env (fst (Bot.strategyLoop env st polls)).
Proof.
  induction polls as [|poll rest IH]; intros st H; [exact H|].
  cbn [Bot.strategyLoop].
  pose proof (Bot_reach_cycle env st poll H) as H1.
  destruct (Bot.cycle env st poll) as [st1 out1]. simpl in H1.
  specialize (IH st1 H1). now destruct (Bot.strategyLoop env st1 rest).
Qed.

Lemma Part000_run_reachable pid polls :
  forall st, Part000_reachable env pid st ->
             Part000_reachable env pid (fst (Part000.turns env st polls)).
Proof.
  induction polls as [|poll rest IH]; intros st H; [exact H|].
  cbn [Part000.turns].
  pose proof (Part000_reach_cycle env pid st poll H) as H1.
  destruct (Part000.cycle env st poll) as [st1 out1]. simpl in H1.
  specialize (IH st1 H1). now destruct (Part000.turns env st1 rest).
Qed.

Lemma Part001_run_reachable polls :
  forall st, Part001_reachable env st ->
             Part001_reachable env (fst (Part001.strategyLoop env st polls)).
Proof.
  induction polls as [|poll rest IH]; intros st H; [exact H|].
  cbn [Part001.strategyLoop].
  pose proof (Part001_reach_cycle env st poll H) as H1.
  destruct (Part001.cycle env st poll) as [st1 out1]. simpl in H1.
  specialize (IH st1 H1). now destruct (Part001.strategyLoop env st1 rest).
Qed.

End Runs.

(** X14.  Over a whole run from startup, in each of the three files: the
    log is broadcast as often as the notifier is called, at most once per
    turn; no more messages are posted than the notifier is called; and the
    log holds no more entries than the notifier was called, and never more
    than 50. *)
Theorem run_counts :
  forall (host : Host) (env : Env) (pid : Z) (polls : list Poll),
    (length (filter isEmit (snd (Bot.strategyLoop env Bot.initial polls)))
     = length (filter isNotify (snd (Bot.strategyLoop env Bot.initial polls)))
     /\ (length (filter isPost (snd (Bot.strategyLoop env Bot.initial polls)))
         <= length (filter isNotify (snd (Bot.strategyLoop env Bot.initial polls))))%nat
     /\ (length (filter isNotify (snd (Bot.strategyLoop env Bot.initial polls)))
         <= length polls)%nat
     /\ (length (Bot.logs (fst (Bot.strategyLoop env Bot.initial polls)))
         <= Nat.min 50 (length (filter isNotify
                                  (snd (Bot.strategyLoop env Bot.initial polls)))))%nat)
    /\ (length (filter isEmit (snd (Part000.strategyLoop env (Part000_initial pid) polls)))
        = length (filter isNotify
                    (snd (Part000.strategyLoop env (Part000_initial pid) polls)))
        /\ (length (filter isPost
                      (snd (Part000.strategyLoop env (Part000_initial pid) polls)))
            <= length (filter isNotify
                         (snd (Part000.strategyLoop env (Part000_initial pid) polls))))%nat
        /\ (length (filter isNotify
                      (snd (Part000.strategyLoop env (Part000_initial pid) polls)))
            <= length polls)%nat
        /\ (length (Part000.logs
                      (fst (Part000.strategyLoop env (Part000_initial pid) polls)))
            <= Nat.min 50
                 (length (filter isNotify
                            (snd (Part000.strategyLoop env (Part000_initial pid) polls)))))%nat)
    /\ (length (filter isEmit (snd (Part001.strategyLoop env Part001.initial polls)))
        = length (filter isNotify (snd (Part001.strategyLoop env Part001.initial polls)))
        /\ (length (filter isPost (snd (Part001.strategyLoop env Part001.initial polls)))
            <= length (filter isNotify
                         (snd (Part001.strategyLoop env Part001.initial polls))))%nat
        /\ (length (filter isNotify (snd (Part001.strategyLoop env Part001.initial polls)))
            <= length polls)%nat
        /\ (length (Part001.logs (fst (Part001.strategyLoop env Part001.initial polls)))
            <= Nat.min 50
                 (length (filter isNotify
                            (snd (Part001.strategyLoop env Part001.initial polls)))))%nat).
Proof.
  intros host env pid polls. split; [|split].
  - destruct (Bot_run_tally env polls Bot.initial) as (He & Hp & Hn & Hl).
    pose proof (Bot_reachable_bounded env _
                  (Bot_run_reachable env polls _ (Bot_reach_initial env))) as Hb.
    simpl in Hl. repeat split; try assumption. lia.
  - change (Part000.strategyLoop env (Part000_initial pid) polls)
      with (Part000.turns env (Part000_initial pid) polls).
    destruct (Part000_run_tally env polls (Part000_initial pid)) as (He & Hp & Hn & Hl).
    pose proof (Part000_reachable_bounded env pid _
                  (Part000_run_reachable env pid polls _
                     (Part000_reach_initial env pid (Part000_initial pid) true eq_refl)))
      as Hb.
    simpl in Hl. repeat split; try assumption. lia.
  - destruct (Part001_run_tally env polls Part001.initial) as (He & Hp & Hn & Hl).
    pose proof (Part001_reachable_bounded env _
                  (Part001_run_reachable env polls _ (Part001_reach_initial env))) as Hb.
    simpl in Hl. repeat split; try assumption. lia.
Qed.

(** ** Stripping tags in [part_001] *)

Lemma hasGt_stripFrom s : forall b, hasGt (stripFrom b s) = true -> hasGt s = true.
Proof.
  induction s as [|c rest IH]; intros b H; [destruct b; discriminate|].
  cbn [stripFrom] in H. cbn [hasGt].
  destruct (Ascii.eqb c ">") eqn:Hc; [reflexivity|]. simpl.
  destruct b.
  - simpl in H. now apply (IH true).
  - destruct (Ascii.eqb c "<" && hasGt rest) eqn:Ht.
    + now apply (IH true).
    + cbn [hasGt] in H. rewrite Hc in H. simpl in H. now apply (IH false).
Qed.

Lemma stripFrom_noTag s : forall b, noTag (stripFrom b s) = true.
Proof.
  induction s as [|c rest IH]; intro b; [destruct b; reflexivity|].
  cbn [stripFrom]. destruct b; [apply IH|].
  destruct (Ascii.eqb c "<" && hasGt rest) eqn:Ht; [apply IH|].
  cbn [noTag]. rewrite IH, andb_true_r.
  destruct (Ascii.eqb c "<") eqn:Hc; [|reflexivity].
  simpl in Ht. simpl.
  destruct (hasGt (stripFrom false rest)) eqn:Hg; [|reflexivity].
  apply hasGt_stripFrom in Hg. congruence.
Qed.

Lemma noTag_stripFrom s : noTag s = true -> stripFrom false s = s.
Proof.
  induction s as [|c rest IH]; [reflexivity|].
  cbn [noTag stripFrom]. intro H. apply andb_true_iff in H. destruct H as [Hc Hrest].
  apply negb_true_iff in Hc. rewrite Hc. now rewrite IH.
Qed.

Lemma hasLt_noTag s : hasLt s = false -> noTag s = true.
Proof.
  induction s as [|c rest IH]; [reflexivity|].
  cbn [hasLt noTag]. intro H. apply orb_false_iff in H. destruct H as [Hc Hrest].
  rewrite Hc. simpl. now apply IH.
Qed.

Lemma stripFrom_length s : forall b, (String.length (stripFrom b s) <= String.length s)%nat.
Proof.
  induction s as [|c rest IH]; intro b; [destruct b; simpl; lia|].
  cbn [stripFrom]. destruct b.
  - specialize (IH (negb (Ascii.eqb c ">"))). simpl. lia.
  - destruct (Ascii.eqb c "<" && hasGt rest).
    + specialize (IH true). simpl. lia.
    + specialize (IH false). simpl. lia.
Qed.

(** X15.  [stripTags], the replacement of every match of the pattern
    [<[^>]*>] by nothing: its result has no match of the pattern left, so
    stripping twice is stripping once; a message with no match, in
    particular one with no '<', comes back unchanged; and the result is
    never longer than the message. *)
Theorem stripTags_properties :
  forall (msg : string),
    noTag (stripTags msg) = true
    /\ stripTags (stripTags msg) = stripTags msg
    /\ (noTag msg = true -> stripTags msg = msg)
    /\ (hasLt msg = false -> stripTags msg = msg)
    /\ (String.length (stripTags msg) <= String.length msg)%nat.
Proof.
  intro msg. unfold stripTags.
  pose proof (stripFrom_noTag msg false) as Hno.
  split; [exact Hno|]. split; [now apply noTag_stripFrom|].
  split; [apply noTag_stripFrom|].
  split; [intro H; now apply noTag_stripFrom, hasLt_noTag | apply stripFrom_length].
Qed.

Lemma stripTags_properties_witness :
  stripTags "<b>UPTREND</b> 1 < 2, a <i>b</i>" = "UPTREND 1 b"%string
  /\ stripTags "UPTREND 1 < 2" = "UPTREND 1 < 2"%string.
Proof.
  split; [reflexivity|].
  exact (proj1 (proj2 (proj2 (stripTags_properties "UPTREND 1 < 2"))) eq_refl).
Defined.

Lemma stripFrom_app_noLt s t :
  hasLt s = false -> stripFrom false (s ++ t)%string = (s ++ stripFrom false t)%string.
Proof.
  induction s as [|c rest IH]; [reflexivity|].
  cbn [hasLt]. intro H. apply orb_false_iff in H. destruct H as [Hc Hrest].
  cbn [String.append stripFrom]. rewrite Hc. simpl. now rewrite IH.
Qed.

(** X16.  The message [part_001] builds is the message [bot.js] and
    [part_000] build with the tags stripped; and when neither the printed
    price nor the printed time holds a '<', stripping leaves the message of
    [part_001] as it is, so with both credentials set [part_001] posts the
    very message it logs. *)
Theorem part_001_message_is_stripped :
  forall (host : Host) (env : Env) (uptrend : bool) (trend : Trend) (last : Candle)
         (istTime : string),
    hasLt (toLocaleString (close last)) = false ->
    hasLt istTime = false ->
    stripTags (Bot.message uptrend trend last istTime)
    = Part001.message uptrend trend last istTime
    /\ Part000.message uptrend trend last istTime = Bot.message uptrend trend last istTime
    /\ stripTags (Part001.message uptrend trend last istTime)
       = Part001.message uptrend trend last istTime
    /\ (missing (BOT_TOKEN env) || missing (CHAT_ID env) = false ->
        Part001.sendTelegram env (Part001.message uptrend trend last istTime)
        = [Post env (Part001.message uptrend trend last istTime)]).
Proof.
  intros host env uptrend trend last istTime Hprice Htime.
  assert (Hstrip : stripTags (Part001.message uptrend trend last istTime)
                   = Part001.message uptrend trend last istTime).
  { unfold stripTags, Part001.message, SYMBOL, RESOLUTION, newline, trendName.
    destruct uptrend, trend; cbn;
      rewrite (stripFrom_app_noLt _ _ Hprice); cbn;
      rewrite (noTag_stripFrom istTime (hasLt_noTag istTime Htime)); reflexivity. }
  split; [|split; [reflexivity|split; [exact Hstrip|]]].
  - unfold stripTags, Bot.message, Part001.message, SYMBOL, RESOLUTION, newline, trendName.
    destruct uptrend, trend; cbn;
      rewrite (stripFrom_app_noLt _ _ Hprice); cbn;
      rewrite (noTag_stripFrom istTime (hasLt_noTag istTime Htime)); reflexivity.
  - intro Hcred. unfold Part001.sendTelegram. now rewrite Hcred, Hstrip.
Qed.

Lemma part_001_message_is_stripped_witness :
  stripTags (@Bot.message sampleHost true UPTREND offBoundaryCandle "2023-11-15 03:30 IST")
  = @Part001.message sampleHost true UPTREND offBoundaryCandle "2023-11-15 03:30 IST".
Proof.
  exact (proj1 (part_001_message_is_stripped sampleHost sampleEnv true UPTREND
                  offBoundaryCandle "2023-11-15 03:30 IST" eq_refl eq_refl)).
Defined.

(** ** What a turn decides *)

Lemma colors_last_not_yellow (t3 : list float) :
  (2 <= length t3)%nat ->
  lastIs yellow (colors t3) = false
  /\ lastIs red (colors t3) = negb (lastIs green (colors t3)).
Proof.
  intros Hlen. unfold lastIs.
  rewrite at_last_nth_error, colors_length.
  destruct (nth_error t3 (length t3 - 1)) as [v|] eqn:Hv;
    [|apply nth_error_None in Hv; lia].
  rewrite (colors_nth_error t3 _ v Hv).
  destruct (length t3 - 1)%nat as [|n] eqn:E; [lia|].
  now destruct (PrimFloat.ltb (get t3 n) v).
Qed.

Lemma trendDiffers_same t : trendDiffers t (Some t) = false.
Proof. now destruct t. Qed.

Section Evaluate.

Context {host : Host}.
Variable env : Env.

Lemma signal_spec df :
  (2 <= length df)%nat ->
  signal df
  = if Bool.eqb
         (lastIs green (colors (tillsonT3Series (map high df) (map low df) (map close df)
                                  length1 a1)))
         (lastIs green (colors (tillsonT3Series (map high df) (map low df) (map close df)
                                  length2 a2)))
    then Some (if lastIs green (colors (tillsonT3Series (map high df) (map low df)
                                          (map close df) length1 a1))
               then UPTREND else DOWNTREND)
    else None.
Proof.
  intro Hlen. unfold signal. cbv zeta.
  destruct (colors_last_not_yellow
              (tillsonT3Series (map high df) (map low df) (map close df) length1 a1))
    as [_ ->]; [now rewrite tillsonT3Series_length, length_map|].
  destruct (colors_last_not_yellow
              (tillsonT3Series (map high df) (map low df) (map close df) length2 a2))
    as [_ ->]; [now rewrite tillsonT3Series_length, length_map|].
  now destruct (lastIs green _), (lastIs green _).
Qed.

Lemma Bot_cycle_evaluate st poll df last :
  fetchData (response poll) = Some df ->
  (20 <= length df)%nat ->
  at_last df = Some last ->
  sameCandle (Bot.candleTs last) (Bot.lastCandleTs st) = false ->
  match signal df with
  | None =>
      Bot.cycle env st poll
      = ({| Bot.lastTrend := Bot.lastTrend st;
            Bot.lastCandleTs := Some (Bot.candleTs last);
            Bot.logs := Bot.logs st |}, [Sleep Bot.POLL_INTERVAL])
  | Some t =>
      Bot.lastTrend (fst (Bot.cycle env st poll)) = Some t
      /\ Bot.lastCandleTs (fst (Bot.cycle env st poll)) = Some (Bot.candleTs last)
      /\ (Bot.lastTrend st = Some t ->
          Bot.cycle env st poll
          = ({| Bot.lastTrend := Bot.lastTrend st;
                Bot.lastCandleTs := Some (Bot.candleTs last);
                Bot.logs := Bot.logs st |}, [Sleep Bot.POLL_INTERVAL]))
  end.
Proof.
  intros Hfetch Hlen Hlast Hsame.
  unfold Bot.cycle, signal. cbv zeta.
  rewrite Hfetch, (not_short df Hlen), Hlast, Hsame. cbn [Bot.lastTrend Bot.logs].
  destruct (negb _ && negb _); [reflexivity|].
  destruct (trendDiffers _ _) eqn:Hd.
  - repeat split. intro Heq. now apply trendDiffers_true in Hd.
  - repeat split. now apply trendDiffers_false in Hd.
Qed.

Lemma Part001_cycle_evaluate st poll df last :
  fetchData (response poll) = Some df ->
  (20 <= length df)%nat ->
  at_last df = Some last ->
  sameCandle (Part001.candleTs last) (Part001.lastCandleTs st) = false ->
  match signal df with
  | None =>
      Part001.cycle env st poll
      = ({| Part001.lastTrend := Part001.lastTrend st;
            Part001.lastCandleTs := Some (Part001.candleTs last);
            Part001.logs := Part001.logs st |}, [Sleep Part001.POLL_INTERVAL])
  | Some t =>
      Part001.lastTrend (fst (Part001.cycle env st poll)) = Some t
      /\ Part001.lastCandleTs (fst (Part001.cycle env st poll))
         = Some (Part001.candleTs last)
      /\ (Part001.lastTrend st = Some t ->
          Part001.cycle env st poll
          = ({| Part001.lastTrend := Part001.lastTrend st;
                Part001.lastCandleTs := Some (Part001.candleTs last);
                Part001.logs := Part001.logs st |}, [Sleep Part001.POLL_INTERVAL]))
  end.
Proof.
  intros Hfetch Hlen Hlast Hsame.
  unfold Part001.cycle, signal. cbv zeta.
  rewrite Hfetch, (not_short df Hlen), Hlast, Hsame. cbn [Part001.lastTrend Part001.logs].
  destruct (negb _ && negb _); [reflexivity|].
  destruct (trendDiffers _ _) eqn:Hd.
  - repeat split. intro Heq. now apply trendDiffers_true in Hd.
  - repeat split. now apply trendDiffers_false in Hd.
Qed.

Lemma Part000_cycle_evaluate st poll df last :
  fetchData (response poll) = Some df ->
  (20 <= length df)%nat ->
  at_last df = Some last ->
  sameCandle (Part000.candleTs last) (Part000.lastCandleTs st) = false ->
  match signal df with
  | None =>
      Part000.cycle env st poll = (Part000.setLastCandleTs st (Part000.candleTs last), [])
  | Some t =>
      Part000.lastTrend (fst (Part000.cycle env st poll)) = Some t
      /\ Part000.lastCandleTs (fst (Part000.cycle env st poll))
         = Some (Part000.candleTs last)
      /\ (Part000.lastTrend st = Some t ->
          Part000.cycle env st poll
          = (Part000.setLastCandleTs st (Part000.candleTs last),
             [Sleep Part000.POLL_INTERVAL]))
  end.
Proof.
  intros Hfetch Hlen Hlast Hsame.
  unfold Part000.cycle, signal. cbv zeta.
  rewrite Hfetch, (not_short df Hlen), Hlast, Hsame.
  destruct (negb _ && negb _); [reflexivity|].
  destruct (trendDiffers _ _) eqn:Hd.
  - match goal with
    | |- context [Part000.sendTelegram ?e ?s ?n ?o ?m] =>
        pose proof (Part000_sendTelegram_frame e s n o m) as Hframe;
        destruct (Part000.sendTelegram e s n o m) as [st' posted]
    end.
    simpl in Hframe. destruct Hframe as (_ & Hc & _).
    simpl. rewrite Hc. repeat split.
    intro Heq. now apply trendDiffers_true in Hd.
  - repeat split. now apply trendDiffers_false in Hd.
Qed.

End Evaluate.

(** X17.  On a series of two or more values the last colour is green or
    red, never yellow.  So a turn with 20 or more candles on a bar not yet
    seen finds a trend exactly when the last colours of the two smoothed
    series agree: it then ends with UPTREND recorded when both are green
    and DOWNTREND when both are red; when they disagree it records the bar
    as seen and does nothing else ([part_000] goes on without sleeping).
    This holds in each of the three files. *)
Theorem no_trend_only_on_disagreement :
  forall (host : Host) (env : Env) (poll : Poll) (df : list Candle) (last : Candle),
    fetchData (response poll) = Some df ->
    (20 <= length df)%nat ->
    at_last df = Some last ->
    let green1 :=
      lastIs green (colors (tillsonT3Series (map high df) (map low df) (map close df)
                              length1 a1)) in
    let green2 :=
      lastIs green (colors (tillsonT3Series (map high df) (map low df) (map close df)
                              length2 a2)) in
    (lastIs yellow (colors (tillsonT3Series (map high df) (map low df) (map close df)
                              length1 a1)) = false
     /\ lastIs yellow (colors (tillsonT3Series (map high df) (map low df) (map close df)
                                 length2 a2)) = false)
    /\ (forall st,
           sameCandle (Bot.candleTs last) (Bot.lastCandleTs st) = false ->
           (green1 = green2 ->
            Bot.lastTrend (fst (Bot.cycle env st poll))
            = Some (if green1 then UPTREND else DOWNTREND))
           /\ (green1 <> green2 ->
               Bot.cycle env st poll
               = ({| Bot.lastTrend := Bot.lastTrend st;
                     Bot.lastCandleTs := Some (Bot.candleTs last);
                     Bot.logs := Bot.logs st |}, [Sleep Bot.POLL_INTERVAL])))
    /\ (forall st,
           sameCandle (Part000.candleTs last) (Part000.lastCandleTs st) = false ->
           (green1 = green2 ->
            Part000.lastTrend (fst (Part000.cycle env st poll))
            = Some (if green1 then UPTREND else DOWNTREND))
           /\ (green1 <> green2 ->
               Part000.cycle env st poll
               = (Part000.setLastCandleTs st (Part000.candleTs last), [])))
    /\ (forall st,
           sameCandle (Part001.candleTs last) (Part001.lastCandleTs st) = false ->
           (green1 = green2 ->
            Part001.lastTrend (fst (Part001.cycle env st poll))
            = Some (if green1 then UPTREND else DOWNTREND))
           /\ (green1 <> green2 ->
               Part001.cycle env st poll
               = ({| Part001.lastTrend := Part001.lastTrend st;
                     Part001.lastCandleTs := Some (Part001.candleTs last);
                     Part001.logs := Part001.logs st |}, [Sleep Part001.POLL_INTERVAL]))).
Proof.
  intros host env poll df last Hfetch Hlen Hlast green1 green2.
  assert (H2 : (2 <= length df)%nat) by lia.
  pose proof (signal_spec df H2) as Hsig. fold green1 green2 in Hsig.
  split.
  - split; apply colors_last_not_yellow; rewrite tillsonT3Series_length, length_map; lia.
  - split; [|split]; intros st Hsame.
    + pose proof (Bot_cycle_evaluate env st poll df last Hfetch Hlen Hlast Hsame) as He.
      rewrite Hsig in He. split.
      * intro Heq. rewrite Heq, Bool.eqb_reflx in He. rewrite Heq. exact (proj1 He).
      * intro Hne. apply Bool.eqb_false_iff in Hne. now rewrite Hne in He.
    + pose proof (Part000_cycle_evaluate env st poll df last Hfetch Hlen Hlast Hsame) as He.
      rewrite Hsig in He. split.
      * intro Heq. rewrite Heq, Bool.eqb_reflx in He. rewrite Heq. exact (proj1 He).
      * intro Hne. apply Bool.eqb_false_iff in Hne. now rewrite Hne in He.
    + pose proof (Part001_cycle_evaluate env st poll df last Hfetch Hlen Hlast Hsame) as He.
      rewrite Hsig in He. split.
      * intro Heq. rewrite Heq, Bool.eqb_reflx in He. rewrite Heq. exact (proj1 He).
      * intro Hne. apply Bool.eqb_false_iff in Hne. now rewrite Hne in He.
Qed.

Lemma no_trend_only_on_disagreement_witness :
  @Bot.lastTrend
     (fst (@Bot.cycle sampleHost sampleEnv Bot.initial risingPoll)) = Some UPTREND.
Proof.
  assert (Hlast : at_last (@normalize sampleHost (sampleRows 25 1699920000 60000 10))
                  = Some {| timestamp := Num 1700092800000; open := 60240; high := 60240;
                            low := 60240; close := 60240 |})
    by (vm_compute; reflexivity).
  assert (Hfetch : @fetchData sampleHost (response risingPoll)
                   = Some (@normalize sampleHost (sampleRows 25 1699920000 60000 10))).
  { unfold risingPoll, samplePoll, fetchData. cbn [response success result truthy negb].
    rewrite objects_map. reflexivity. }
  assert (Hlen : (20 <= length (@normalize sampleHost (sampleRows 25 1699920000 60000 10)))%nat)
    by (vm_compute; lia).
  pose proof (no_trend_only_on_disagreement sampleHost sampleEnv risingPoll _ _
                Hfetch Hlen Hlast) as H.
  cbv zeta in H.
  refine (eq_trans (proj1 (proj1 (proj2 H) Bot.initial eq_refl) _) _);
    vm_compute; reflexivity.
Defined.

(** ** Polling the same answer again *)

Section SameAnswer.

Context {host : Host}.
Variable env : Env.










End SameAnswer.


